(** * A shallow embedding of [sylk_parser/sylk.py]

    The module reads SYLK spreadsheet files: a [Table] of string cells that
    grows on demand, and a [SYLK] document object whose [parseline] method
    dispatches one record at a time.

    Python integers are modelled by [Z], Python strings by [string]
    (characters restricted to one byte), Python lists by [list] with stdpp's
    lookup [!!] and insert [<[_:=_]>], and Python dicts by insertion-ordered
    association lists (the report of [writeunknown] depends on the order).
    Methods that mutate [self] become state transformers returning an
    [outcome] together with the state reached, so that the mutations made
    before an exception stay visible, as they do in Python.  The floats of
    the date conversion are modelled with their rounding, and the [time]
    module is a parameter of the parser, a host with a 64-bit [time_t] and
    a zone at a fixed offset being given as an instance. *)

From Stdlib Require Import ZArith Ascii String DecimalString DecimalFacts DecimalPos.
From stdpp Require Import base tactics option list.

Local Open Scope string_scope.
Local Open Scope Z_scope.

(** ** Outcomes of Python computations *)

(** The exceptions the modelled code can raise. *)
Inductive exn : Type :=
| IndexError
| ValueError
| OverflowError
| OSError.

(** [Beyond] marks a step the model does not cover (a call of [eval] on a
    token outside the literal fragment below, which in Python can run any
    expression and change the document; a [strftime] directive or a time
    tuple that is not modelled): nothing is claimed about such runs. *)
Inductive outcome (A : Type) : Type :=
| Ok (a : A)
| Raise (e : exn)
| Beyond.
Arguments Ok {A} a.
Arguments Raise {A} e.
Arguments Beyond {A}.

(** ** Characters and strings *)

Module Chr.
Definition dquote : ascii := Eval cbv in ascii_of_nat 34.
Definition squote : ascii := Eval cbv in ascii_of_nat 39.
Definition backslash : ascii := Eval cbv in ascii_of_nat 92.
Definition lf : ascii := Eval cbv in ascii_of_nat 10.
Definition cr : ascii := Eval cbv in ascii_of_nat 13.
Definition tab : ascii := Eval cbv in ascii_of_nat 9.
Definition nul : ascii := Eval cbv in ascii_of_nat 0.
Definition space : ascii := Eval cbv in ascii_of_nat 32.

Definition code (c : ascii) : Z := Z.of_nat (nat_of_ascii c).

Definition is_digit (c : ascii) : bool := (48 <=? code c) && (code c <=? 57).

(** ASCII letters: among the one-byte characters of the model these are
    the characters the class [[a-z]] matches under the flag [(?i)] (the
    other characters it matches lie beyond U+00FF). *)
Definition is_letter (c : ascii) : bool :=
  ((65 <=? code c) && (code c <=? 90)) || ((97 <=? code c) && (code c <=? 122)).

(** The characters [int] skips around a number. *)
Definition is_space (c : ascii) : bool :=
  ((9 <=? code c) && (code c <=? 13)) || (code c =? 32)
  || (code c =? 133) || (code c =? 160).

Definition digit_val (c : ascii) : option Z :=
  if is_digit c then Some (code c - 48) else None.
End Chr.

Module Str.
(** The one-character string. *)
Definition chr (c : ascii) : string := String c EmptyString.

(** [c in s] for a one-character needle. *)
Fixpoint contains (c : ascii) (s : string) : bool :=
  match s with
  | EmptyString => false
  | String d s' => Ascii.eqb c d || contains c s'
  end.

(** [s.replace(c, "")]: every occurrence of the character removed. *)
Fixpoint remove (c : ascii) (s : string) : string :=
  match s with
  | EmptyString => EmptyString
  | String d s' => if Ascii.eqb c d then remove c s' else String d (remove c s')
  end.

(** [re.sub(c, r, s)] for a one-character pattern and a replacement text
    [r] already expanded: every occurrence of [c] becomes [r]. *)
Fixpoint sub (c : ascii) (r : string) (s : string) : string :=
  match s with
  | EmptyString => EmptyString
  | String d s' => if Ascii.eqb c d then r ++ sub c r s' else String d (sub c r s')
  end.

(** [s[:n]]. *)
Fixpoint take (n : nat) (s : string) : string :=
  match n, s with
  | S n', String c s' => String c (take n' s')
  | _, _ => EmptyString
  end.

(** [s[:-1]]: all but the last character. *)
Fixpoint drop_last (s : string) : string :=
  match s with
  | EmptyString => EmptyString
  | String c EmptyString => EmptyString
  | String c s' => String c (drop_last s')
  end.

(** [s[1:]]. *)
Definition tail (s : string) : string :=
  match s with
  | EmptyString => EmptyString
  | String _ s' => s'
  end.

(** [s[1:-1]]. *)
Definition inner (s : string) : string := drop_last (tail s).

(** [s[0]], which raises on the empty string. *)
Definition head (s : string) : outcome ascii :=
  match s with
  | EmptyString => Raise IndexError
  | String c _ => Ok c
  end.

Fixpoint rev_onto (s acc : string) : string :=
  match s with
  | EmptyString => acc
  | String c s' => rev_onto s' (String c acc)
  end.

Definition rev (s : string) : string := rev_onto s EmptyString.

Fixpoint lstrip (s : string) : string :=
  match s with
  | EmptyString => EmptyString
  | String c s' => if Chr.is_space c then lstrip s' else s
  end.

(** The string without the white space around it. *)
Definition strip (s : string) : string := rev (lstrip (rev (lstrip s))).

(** [str(n)] for an integer. *)
Definition of_Z (n : Z) : string := NilEmpty.string_of_int (Z.to_int n).
End Str.

(** ** Python built-ins used by the parser *)

Module Py.
(** Normalisation of a list or string index: a negative index counts from
    the end; [None] when Python raises [IndexError]. *)
Definition index (len : nat) (i : Z) : option nat :=
  let n := Z.of_nat len in
  if (0 <=? i) && (i <? n) then Some (Z.to_nat i)
  else if (i <? 0) && (0 <=? i + n) then Some (Z.to_nat (i + n))
  else None.

(** [l[i]]. *)
Definition getitem {A : Type} (l : list A) (i : Z) : outcome A :=
  match index (length l) i with
  | Some k => match l !! k with
              | Some a => Ok a
              | None => Raise IndexError
              end
  | None => Raise IndexError
  end.

(** Digits after the first one of an integer literal given to [int]:
    digits, with single underscores between digits. *)
Fixpoint int_digits (acc : Z) (s : string) : option Z :=
  match s with
  | EmptyString => Some acc
  | String c s' =>
      match Chr.digit_val c with
      | Some d => int_digits (10 * acc + d) s'
      | None =>
          if Ascii.eqb c "_"
          then match s' with
               | EmptyString => None
               | String c' s'' =>
                   match Chr.digit_val c' with
                   | Some d => int_digits (10 * acc + d) s''
                   | None => None
                   end
               end
          else None
      end
  end.

Definition int_unsigned (s : string) : option Z :=
  match s with
  | EmptyString => None
  | String c s' =>
      match Chr.digit_val c with
      | Some d => int_digits d s'
      | None => None
      end
  end.

(** [int(s)] in base ten: surrounding white space stripped, an optional
    sign, then digits; [None] when Python raises [ValueError].  (The
    interpreter's configurable limit on the number of digits is not
    modelled.) *)
Definition int (s : string) : option Z :=
  match Str.strip s with
  | String "-" s' => Z.opp <$> int_unsigned s'
  | String "+" s' => int_unsigned s'
  | s' => int_unsigned s'
  end.

(** The values a cell token can evaluate to in the modelled fragment. *)
Inductive value : Type :=
| VInt (n : Z)
| VStr (s : string).

(** Digits of a decimal integer literal of the expression grammar (no
    underscores are modelled). *)
Fixpoint lit_digits (acc : Z) (s : string) : option Z :=
  match s with
  | EmptyString => Some acc
  | String c s' =>
      match Chr.digit_val c with
      | Some d => lit_digits (10 * acc + d) s'
      | None => None
      end
  end.

Fixpoint all_zero (s : string) : bool :=
  match s with
  | EmptyString => true
  | String c s' => Ascii.eqb c "0" && all_zero s'
  end.

(** The default of [sys.get_int_max_str_digits()]: a decimal literal with
    more digits is refused by the interpreters that have the limit. *)
Definition max_str_digits : Z := 4300.

(** The number a run of digits denotes as a decimal literal: a non-zero
    digit followed by digits, or zeros only (a literal such as [042] is a
    syntax error). *)
Definition decimal_literal (s : string) : option Z :=
  match s with
  | EmptyString => None
  | String c s' =>
      match Chr.digit_val c with
      | Some d => if (d =? 0) && negb (all_zero s') then None else lit_digits d s'
      | None => None
      end
  end.

(** A decimal integer literal, of at most [max_str_digits] digits. *)
Definition int_literal (s : string) : option Z :=
  if max_str_digits <? Z.of_nat (String.length s) then None else decimal_literal s.

(** The body of a short string literal opened by a double quote: plain
    characters up to the closing quote, which must end the token; a
    backslash introduces one of the escapes listed. *)
Fixpoint str_body (s : string) : option string :=
  match s with
  | EmptyString => None
  | String c s' =>
      if Ascii.eqb c Chr.dquote then
        match s' with
        | EmptyString => Some EmptyString
        | _ => None
        end
      else if Ascii.eqb c Chr.backslash then
        match s' with
        | EmptyString => None
        | String e s'' =>
            let esc :=
              if Ascii.eqb e Chr.dquote then Some Chr.dquote
              else if Ascii.eqb e Chr.backslash then Some Chr.backslash
              else if Ascii.eqb e Chr.squote then Some Chr.squote
              else if Ascii.eqb e "n" then Some Chr.lf
              else if Ascii.eqb e "r" then Some Chr.cr
              else if Ascii.eqb e "t" then Some Chr.tab
              else None in
            match esc with
            | Some d => String d <$> str_body s''
            | None => None
            end
        end
      else if Ascii.eqb c Chr.lf || Ascii.eqb c Chr.cr || Ascii.eqb c Chr.nul then None
      else String c <$> str_body s'
  end.

(** [eval(s)] on the literal fragment: a decimal integer literal with an
    optional sign, or a double-quoted short string literal.  [None] is
    every other token (Python raises, or evaluates a general expression,
    which can do anything, to the document too). *)
Definition eval (s : string) : option value :=
  match s with
  | EmptyString => None
  | String c s' =>
      if Ascii.eqb c Chr.dquote then VStr <$> str_body s'
      else if Ascii.eqb c "-" then (fun n => VInt (- n)) <$> int_literal s'
      else if Ascii.eqb c "+" then VInt <$> int_literal s'
      else VInt <$> int_literal s
  end.

(** ["%s" % v]. *)
Definition format_s (v : value) : string :=
  match v with
  | VInt n => Str.of_Z n
  | VStr s => s
  end.
End Py.

(** ** [class Table] *)

Module Table.
(** [self.rows]: a list of rows, each a list of cell strings. *)
Record t : Type := Build { rows : list (list string) }.

(** [Table.__init__] *)
Definition init : t := {| rows := [] |}.

(** [[' '] * n]; a count below one gives the empty list. *)
Definition blanks (n : Z) : list string := replicate (Z.to_nat n) " ".

(** [Table._extend_row]: [row.extend([' '] * missing)]. *)
Definition _extend_row (row : list string) (missing : Z) : list string :=
  row ++ blanks missing.

(** The loop [while len(self.rows) < y: self.rows.append([' '] * x)],
    with a bound on the number of iterations. *)
Fixpoint grow (fuel : nat) (x y : Z) (rs : list (list string)) : list (list string) :=
  match fuel with
  | O => rs
  | S fuel' =>
      if Z.of_nat (length rs) <? y
      then grow fuel' x y (rs ++ [blanks x])
      else rs
  end.

(** [val not in ('', ' ')] *)
Definition nonblank (val : string) : bool :=
  negb (String.eqb val EmptyString || String.eqb val " ").

(** [Table.__setitem__]: the outcome and the table reached.  The row
    fetched by [self.rows[oy]] is the very list stored in the table, so
    its extension and the cell assignment are written back at [k]. *)
Definition setitem (xy : Z * Z) (val : string) (tb : t) : outcome unit * t :=
  let '(x, y) := xy in
  let ox := x - 1 in
  let oy := y - 1 in
  let rs := grow (Z.to_nat (y - Z.of_nat (length (rows tb)))) x y (rows tb) in
  match Py.index (length rs) oy with
  | None => (Raise IndexError, {| rows := rs |})
  | Some k =>
      match rs !! k with
      | None => (Raise IndexError, {| rows := rs |})
      | Some row =>
          if nonblank val then
            let row' :=
              if Z.of_nat (length row) <? x
              then _extend_row row (x - Z.of_nat (length row))
              else row in
            match Py.index (length row') ox with
            | None => (Raise IndexError, {| rows := <[k := row']> rs |})
            | Some j => (Ok tt, {| rows := <[k := <[j := val]> row']> rs |})
            end
          else (Ok tt, {| rows := rs |})
      end
  end.

(** [Table.__iter__]: the rows, in order. *)
Definition iter (tb : t) : list (list string) := rows tb.

(** The cell a reader of the rows finds at the 1-based coordinate
    [(x, y)]: [rows[y - 1][x - 1]], [None] outside the stored grid. *)
Definition cell (tb : t) (x y : Z) : option string :=
  if (1 <=? x) && (1 <=? y)
  then rows tb !! Z.to_nat (y - 1) ≫= fun row => row !! Z.to_nat (x - 1)
  else None.

(** A sequence of cell writes [tb[(x, y)] = val], stopping at the first
    exception. *)
Fixpoint setitems (ws : list (Z * Z * string)) (tb : t) : outcome unit * t :=
  match ws with
  | [] => (Ok tt, tb)
  | (xy, val) :: ws' =>
      match setitem xy val tb with
      | (Ok _, tb') => setitems ws' tb'
      | failed => failed
      end
  end.
End Table.

(** ** Dictionaries in insertion order *)

Module Dict.
Definition t (V : Type) : Type := list (string * V).

(** [d.get(k)] *)
Fixpoint get {V : Type} (k : string) (d : t V) : option V :=
  match d with
  | [] => None
  | (k', v) :: d' => if String.eqb k k' then Some v else get k d'
  end.

(** [d[k] = v]: an existing key keeps its position. *)
Fixpoint set {V : Type} (k : string) (v : V) (d : t V) : t V :=
  match d with
  | [] => [(k, v)]
  | (k', v') :: d' => if String.eqb k k' then (k', v) :: d' else (k', v') :: set k v d'
  end.

(** [list(d.keys())] *)
Definition keys {V : Type} (d : t V) : list string := d.*1.

(** A dict display [{k1: v1, ...}]: the entries inserted left to right. *)
Definition of_list {V : Type} (l : list (string * V)) : t V :=
  fold_left (fun d kv => set kv.1 kv.2 d) l [].
End Dict.

(** ** Floats that hold whole numbers *)

Module Double.
(** A double whose value is a whole number, or an infinity.  The seconds
    the parser computes are whole numbers, and the doubles from [2^53] on
    are whole numbers too, so that rounding keeps the values whole. *)
Inductive t : Type :=
| Finite (z : Z)
| Infinite.

(** The double nearest to the whole number [z], ties going to the even
    one: [z] itself up to [2^53], 53 significant bits beyond, an infinity
    from [2^1024] on. *)
Definition round (z : Z) : t :=
  let a := Z.abs z in
  if a <=? 2 ^ 53 then Finite z
  else
    let e := Z.log2 a - 52 in
    let q := a / 2 ^ e in
    let r := a mod 2 ^ e in
    let half := 2 ^ (e - 1) in
    let q' := if (r <? half) || ((r =? half) && Z.even q) then q else q + 1 in
    if 2 ^ 1024 <=? q' * 2 ^ e then Infinite else Finite (Z.sgn z * (q' * 2 ^ e)).

(** [float(n)] of an integer, which raises when no double is near. *)
Definition of_int (n : Z) : outcome t :=
  match round n with
  | Finite z => Ok (Finite z)
  | Infinite => Raise OverflowError
  end.

(** [a * k] for a whole number [k]. *)
Definition mul (a : t) (k : Z) : t :=
  match a with
  | Finite z => round (z * k)
  | Infinite => Infinite
  end.

(** [a + b], the two never being infinities of opposite signs. *)
Definition add (a b : t) : t :=
  match a, b with
  | Finite x, Finite y => round (x + y)
  | _, _ => Infinite
  end.
End Double.

(** ** The [time] module *)

Module HostTime.
(** A [struct_time], the nine-field tuple the source writes its epochs as. *)
Record struct_time : Type := StructTime {
tm_year : Z; tm_mon : Z; tm_mday : Z;
tm_hour : Z; tm_min : Z; tm_sec : Z;
tm_wday : Z; tm_yday : Z; tm_isdst : Z
}.

(** The three functions of [time] the parser calls.  They belong to the
  host platform (they depend on its local time zone and on the range of
  its C types), so the parser is parameterised by them.  A time stamp is a
  whole number of seconds since the Unix epoch: [mktime] gives the value
  of the [time_t] it computes, [localtime] takes the value of a finite
  float that holds a whole number. *)
Record lib : Type := {
mktime : struct_time -> outcome Z;
localtime : Z -> outcome struct_time;
strftime : string -> struct_time -> outcome string
}.
End HostTime.
Export HostTime(struct_time, StructTime, tm_year, tm_mon, tm_mday, tm_hour, tm_min, tm_sec,
            tm_wday, tm_yday, tm_isdst).

(** A POSIX platform with a [time_t] of 64 bits whose local zone lies a
    fixed number of seconds west of UTC and has no daylight-saving rules. *)
Module FixedZone.
(** The ranges of the C types [time_t] and [int]. *)
Definition fits_time_t (z : Z) : bool := (- 2 ^ 63 <=? z) && (z <? 2 ^ 63).
Definition fits_int (z : Z) : bool := (- 2 ^ 31 <=? z) && (z <? 2 ^ 31).

(** Addition in the C [int], which wraps around in the interpreter. *)
Definition wrap_int (z : Z) : Z := (z + 2 ^ 31) mod 2 ^ 32 - 2 ^ 31.

(** The nine fields fit the C [int], the year counted from 1900 too. *)
Definition fields_fit (tm : struct_time) : bool :=
  fits_int (tm_year tm) && fits_int (tm_year tm - 1900) && fits_int (tm_mon tm)
  && fits_int (tm_mday tm) && fits_int (tm_hour tm) && fits_int (tm_min tm)
  && fits_int (tm_sec tm) && fits_int (tm_wday tm) && fits_int (tm_yday tm)
  && fits_int (tm_isdst tm).

(** Days from 1970-01-01 to the civil date [y]-[m]-[d] in the proleptic
    Gregorian calendar. *)
Definition days_from_civil (y m d : Z) : Z :=
  let y' := if m <=? 2 then y - 1 else y in
  let era := y' / 400 in
  let yoe := y' - era * 400 in
  let doy := (153 * (if 2 <? m then m - 3 else m + 9) + 2) / 5 + d - 1 in
  let doe := yoe * 365 + yoe / 4 - yoe / 100 + doy in
  era * 146097 + doe - 719468.

(** The civil date of a day number. *)
Definition civil_from_days (z : Z) : Z * Z * Z :=
  let z' := z + 719468 in
  let era := z' / 146097 in
  let doe := z' - era * 146097 in
  let yoe := (doe - doe / 1460 + doe / 36524 - doe / 146096) / 365 in
  let doy := doe - (365 * yoe + yoe / 4 - yoe / 100) in
  let mp := (5 * doy + 2) / 153 in
  let d := doy - (153 * mp + 2) / 5 + 1 in
  let m := if mp <? 10 then mp + 3 else mp - 9 in
  let y := yoe + era * 400 in
  (if m <=? 2 then y + 1 else y, m, d).

(** A date of the calendar and a time of the day, not flagged as summer
    time: what [mktime] converts without normalising anything. *)
Definition normal (tm : struct_time) : bool :=
  let '(y, m, d) := civil_from_days (days_from_civil (tm_year tm) (tm_mon tm) (tm_mday tm)) in
  (y =? tm_year tm) && (m =? tm_mon tm) && (d =? tm_mday tm)
  && (1 <=? tm_mon tm) && (tm_mon tm <=? 12) && (1 <=? tm_mday tm)
  && (0 <=? tm_hour tm) && (tm_hour tm <? 24)
  && (0 <=? tm_min tm) && (tm_min tm <? 60)
  && (0 <=? tm_sec tm) && (tm_sec tm <? 60)
  && (tm_isdst tm <=? 0).

(** [time.mktime]: the nine fields are read as C [int]s, the year counted
    from 1900; a tuple that is not [normal] would be normalised by the C
    library, which is not modelled. *)
Definition mktime (west : Z) (tm : struct_time) : outcome Z :=
  if fields_fit tm then
    if normal tm
    then Ok (days_from_civil (tm_year tm) (tm_mon tm) (tm_mday tm) * 86400
             + tm_hour tm * 3600 + tm_min tm * 60 + tm_sec tm + west)
    else Beyond
  else Raise OverflowError.

(** [time.localtime]: the seconds must fit [time_t], and the year, counted
    from 1900, the C [int] of [tm_year]; the year of the tuple is
    [tm_year + 1900] computed in the C [int].  The double [2^63] passes
    the range check of the interpreter, which compares doubles, and its
    conversion to [time_t] is left undefined by C: it is not modelled. *)
Definition localtime (west : Z) (secs : Z) : outcome struct_time :=
  if secs =? 2 ^ 63 then Beyond
  else if fits_time_t secs then
    let local := secs - west in
    let days := local / 86400 in
    let rest := local mod 86400 in
    let '(y, m, d) := civil_from_days days in
    if fits_int (y - 1900) then
      Ok {| tm_year := wrap_int y; tm_mon := m; tm_mday := d;
            tm_hour := rest / 3600; tm_min := (rest mod 3600) / 60; tm_sec := rest mod 60;
            tm_wday := (days + 3) mod 7;
            tm_yday := days - days_from_civil y 1 1 + 1;
            tm_isdst := 0 |}
    else Raise OSError
  else Raise OverflowError.

(** A number in at least two digits. *)
Definition two_digits (n : Z) : string :=
  if (0 <=? n) && (n <? 10) then "0" ++ Str.of_Z n else Str.of_Z n.

(** The text of a format with the directives [%d], [%m], [%Y] and
    [%%]. *)
Fixpoint render (fmt : string) (tm : struct_time) : outcome string :=
  match fmt with
  | EmptyString => Ok EmptyString
  | String "%" (String c fmt') =>
      let field :=
        if Ascii.eqb c "d" then Some (two_digits (tm_mday tm))
        else if Ascii.eqb c "m" then Some (two_digits (tm_mon tm))
        else if Ascii.eqb c "Y" then Some (Str.of_Z (tm_year tm))
        else if Ascii.eqb c "%" then Some "%"
        else None in
      match field, render fmt' tm with
      | Some s, Ok r => Ok (s ++ r)
      | Some _, other => other
      | None, _ => Beyond
      end
  | String c fmt' =>
      match render fmt' tm with
      | Ok r => Ok (String c r)
      | other => other
      end
  end.

(** The fields lie in the ranges of a tuple that [localtime] gives. *)
Definition in_range (tm : struct_time) : bool :=
  (1 <=? tm_mon tm) && (tm_mon tm <=? 12) && (1 <=? tm_mday tm) && (tm_mday tm <=? 31)
  && (0 <=? tm_hour tm) && (tm_hour tm <? 24) && (0 <=? tm_min tm) && (tm_min tm <? 60)
  && (0 <=? tm_sec tm) && (tm_sec tm <=? 61) && (0 <=? tm_wday tm) && (tm_wday tm <? 7)
  && (1 <=? tm_yday tm) && (tm_yday tm <=? 366).

(** [time.strftime]: the fields are read as for [mktime]; a tuple with a
    field out of range (refused, or corrected, by the interpreter) is not
    modelled. *)
Definition strftime (fmt : string) (tm : struct_time) : outcome string :=
  if fields_fit tm then
    if in_range tm then render fmt tm else Beyond
  else Raise OverflowError.

Definition lib (west : Z) : HostTime.lib :=
  {| HostTime.mktime := mktime west;
     HostTime.localtime := localtime west;
     HostTime.strftime := strftime |}.
End FixedZone.

(** ** [class SYLK] *)

Module SYLK.
(** *** Class attributes *)

Definition unixepoch : struct_time := StructTime 1970 1 1 0 0 0 0 0 0.
Definition macepoch : struct_time := StructTime 1904 1 1 0 0 0 0 0 0.
Definition pcepoch : struct_time := StructTime 1900 1 1 0 0 0 0 0 0.

(** A double quote, to spell the format strings that contain one. *)
Definition q : string := Str.chr Chr.dquote.

(** [knownformats], the entries of the dict display in source order (a
    repeated key keeps the position of its first occurrence and the value
    of its last). *)
Definition knownformats : Dict.t string := Eval cbv in Dict.of_list [
  ("General", "string");
  ("0", "int");
  ("0.00", "float");
  ("#,##0", "int");
  ("#,##0.00", "float");
  (q ++ "$" ++ q ++ "#,##0\ ;;\(" ++ q ++ "$" ++ q ++ "#,##0\,", "float");
  (q ++ "$" ++ q ++ "#,##0.00\ ;;\(" ++ q ++ "$" ++ q ++ "#,##0.00\,", "float");
  ("0%", "float");
  ("0.00%", "float");
  ("0.00E+00", "float");
  ("m/d/yy", "date");
  ("d-mmm-yy", "date");
  ("d-mmm", "date");
  ("mmm-yy", "date");
  ("h:mm AM/PM", "time");
  ("h:mm:ss AM/PM", "time");
  ("h:mm", "time");
  ("h:mm:ss", "time");
  ("hh:mm AM/PM", "time");
  ("hh:mm:ss AM/PM", "time");
  ("h:mm", "time");
  ("h:mm:ss", "time");
  ("m/d/yy h:mm", "datetime");
  ("m-dd-yy", "date");
  ("m-dd", "date");
  (q ++ "$" ++ q ++ "#,##0 ;;[Red](" ++ q ++ "$" ++ q ++ "#,##0,", "float");
  (q ++ "$" ++ q ++ "#,##0.00 ;;[Red](" ++ q ++ "$" ++ q ++ "#,##0.00,", "float");
  ("mmm d, yyyy", "date");
  ("mmmm d, yyyy", "date");
  ("ddd, mmm d, yyyy", "date");
  ("dddd, mmmm d, yyyy", "date");
  ("d, mmmm yyyy", "date")
].

Definition date_output : string := "%d/%m/%Y".

(** *** Instance attributes *)

Record t : Type := Build {
  datebase : struct_time;
  printformats : list (string * string);
  currentformat : string;
  currenttype : string;
  curx : Z;
  cury : Z;
  data : Table.t;
  unknown : Dict.t (Dict.t Z)
}.

(** [SYLK.__init__] *)
Definition init : t :=
  {| datebase := unixepoch;
     printformats := [];
     currentformat := EmptyString;
     currenttype := EmptyString;
     curx := 0;
     cury := 0;
     data := Table.init;
     unknown := [] |}.

Definition set_datebase (v : struct_time) (s : t) : t :=
  Build v (printformats s) (currentformat s) (currenttype s) (curx s) (cury s)
        (data s) (unknown s).
Definition set_printformats (v : list (string * string)) (s : t) : t :=
  Build (datebase s) v (currentformat s) (currenttype s) (curx s) (cury s)
        (data s) (unknown s).
Definition set_current (fmt ty : string) (s : t) : t :=
  Build (datebase s) (printformats s) fmt ty (curx s) (cury s) (data s) (unknown s).
Definition set_curx (v : Z) (s : t) : t :=
  Build (datebase s) (printformats s) (currentformat s) (currenttype s) v (cury s)
        (data s) (unknown s).
Definition set_cury (v : Z) (s : t) : t :=
  Build (datebase s) (printformats s) (currentformat s) (currenttype s) (curx s) v
        (data s) (unknown s).
Definition set_data (v : Table.t) (s : t) : t :=
  Build (datebase s) (printformats s) (currentformat s) (currenttype s) (curx s) (cury s)
        v (unknown s).
Definition set_unknown (v : Dict.t (Dict.t Z)) (s : t) : t :=
  Build (datebase s) (printformats s) (currentformat s) (currenttype s) (curx s) (cury s)
        (data s) v.

(** *** Methods as state transformers *)

(** A method body: from the object's state to an outcome and the state
    reached. *)
Definition M (A : Type) : Type := t -> outcome A * t.

Definition ret {A : Type} (a : A) : M A := fun s => (Ok a, s).

Definition bind {A B : Type} (m : M A) (k : A -> M B) : M B :=
  fun s =>
    match m s with
    | (Ok a, s') => k a s'
    | (Raise e, s') => (Raise e, s')
    | (Beyond, s') => (Beyond, s')
    end.

(** An outcome computed without touching the state. *)
Definition lift {A : Type} (o : outcome A) : M A := fun s => (o, s).

Definition get : M t := fun s => (Ok s, s).

Definition modify (f : t -> t) : M unit := fun s => (Ok tt, f s).

Declare Scope sylk_scope.
Delimit Scope sylk_scope with sylk.
Notation "x <- m ;; k" := (bind m (fun x => k))
  (at level 100, m at next level, right associativity) : sylk_scope.
Notation "m ;;; k" := (bind m (fun _ => k))
  (at level 100, right associativity) : sylk_scope.
Local Open Scope sylk_scope.

(** [for a in l: body(a)] *)
Fixpoint for_each {A : Type} (body : A -> M unit) (l : list A) : M unit :=
  match l with
  | [] => ret tt
  | a :: l' => body a ;;; for_each body l'
  end.

(** [int(val)], raising [ValueError]. *)
Definition int (val : string) : M Z :=
  lift (match Py.int val with Some n => Ok n | None => Raise ValueError end).

(** [eval(tok)]. *)
Definition eval (tok : string) : M Py.value :=
  lift (match Py.eval tok with Some v => Ok v | None => Beyond end).

(** [SYLK.escape]: the replacement text [\"\"] of [re.sub] stands for
    itself, a backslash before a quote not being an escape of the
    replacement syntax. *)
Definition escape (s : string) : string :=
  if String.eqb (Str.take 1 s) q
  then q ++ Str.sub Chr.dquote (String Chr.backslash q ++ String Chr.backslash q)
                    (Str.inner s) ++ q
  else s.

(** [SYLK.stream_rows] *)
Definition stream_rows (s : t) : Table.t := data s.

(** [SYLK.addunknown] *)
Definition addunknown (fld subfld : string) : M unit :=
  modify (fun s =>
    let inner := default [] (Dict.get fld (unknown s)) in
    let u := Dict.set fld inner (unknown s) in
    set_unknown (Dict.set fld (Dict.set subfld 1 inner) u) s).

(** A lower-case hexadecimal digit. *)
Definition hex_digit (n : Z) : ascii :=
  ascii_of_nat (Z.to_nat (if n <? 10 then 48 + n else 87 + n)).

(** One character of [repr(s)]: the quote in use and the backslash are
    escaped, control and non-printable characters are written as escapes. *)
Definition repr_char (quote c : ascii) : string :=
  if Ascii.eqb c quote || Ascii.eqb c Chr.backslash then String Chr.backslash (Str.chr c)
  else if Ascii.eqb c Chr.tab then "\t"
  else if Ascii.eqb c Chr.lf then "\n"
  else if Ascii.eqb c Chr.cr then "\r"
  else if (Chr.code c <? 32) || ((127 <=? Chr.code c) && (Chr.code c <=? 160))
          || (Chr.code c =? 173)
       then "\x" ++ String (hex_digit (Chr.code c / 16)) (Str.chr (hex_digit (Chr.code c mod 16)))
  else Str.chr c.

Fixpoint repr_chars (quote : ascii) (s : string) : string :=
  match s with
  | EmptyString => EmptyString
  | String c s' => repr_char quote c ++ repr_chars quote s'
  end.

(** [repr(s)] of a string: between single quotes, unless the string holds
    a single quote and no double quote. *)
Definition repr_str (s : string) : string :=
  let quote :=
    if Str.contains Chr.squote s && negb (Str.contains Chr.dquote s)
    then Chr.dquote else Chr.squote in
  String quote (repr_chars quote s) ++ Str.chr quote.

(** [repr(l)] of a list of strings. *)
Definition repr_list (l : list string) : string :=
  "[" ++ String.concat ", " (repr_str <$> l) ++ "]".

(** [SYLK.writeunknown]: the text written to the stream. *)
Definition writeunknown (s : t) : string :=
  match unknown s with
  | [] => "No unrecognized fields" ++ Str.chr Chr.lf
  | _ =>
      "Unrecognized fields (subfields):" ++ Str.chr Chr.lf ++
      String.concat EmptyString
        ((fun key =>
            key ++ " (" ++ repr_list (Dict.keys (default [] (Dict.get key (unknown s))))
                ++ ")" ++ Str.chr Chr.lf) <$> Dict.keys (unknown s))
  end.

(** [x in (a, b, ...)] for strings. *)
Definition among (x : string) (l : list string) : bool := existsb (String.eqb x) l.

(** [SYLK._id_field] *)
Definition _id_field (fields : list string) : M unit :=
  f1 <- lift (Py.getitem fields 1) ;;
  if among (Str.take 6 f1) ["PClari"; "PApple"] then modify (set_datebase macepoch)
  else if among (Str.take 6 f1) ["P Sage"] then modify (set_datebase pcepoch)
  else ret tt.

(** The body of the loop of [_f_field], run on one sub-field. *)
Definition f_subfield (f : string) : M unit :=
  ftd <- lift (Str.head f) ;;
  let val := Str.tail f in
  if Ascii.eqb ftd "X" then (n <- int val ;; modify (set_curx n))
  else if Ascii.eqb ftd "Y" then (n <- int val ;; modify (set_cury n))
  else if Ascii.eqb ftd "P" then
    (n <- int val ;;
     s <- get ;;
     entry <- lift (Py.getitem (printformats s) n) ;;
     modify (set_current entry.1 entry.2))
  else addunknown "F" (Str.chr ftd).

(** [SYLK._f_field] *)
Definition _f_field (fields : list string) : M unit :=
  for_each f_subfield (tail fields).

(** The type guessed from the characters of a format that is not in
    [knownformats] (the [else] branch of [_p_fields]). *)
Definition guess_type (format : string) : string :=
  let hasY := Str.contains "y" format in
  let hasD := Str.contains "d" format in
  let hasH := Str.contains "h" format in
  let hasZ := Str.contains "0" format in
  let hasP := Str.contains "." format in
  if (hasD || hasY) && hasH then "datetime"
  else if hasD || hasY then "date"
  else if hasH then "time"
  else if hasP && hasZ then "float"
  else if hasZ then "int"
  else "string".

(** [self.printformats.append(entry)] *)
Definition append_printformat (entry : string * string) : M unit :=
  modify (fun s => set_printformats (printformats s ++ [entry]) s).

(** [SYLK._p_fields] *)
Definition _p_fields (fields : list string) : M unit :=
  f1 <- lift (Py.getitem fields 1) ;;
  c <- lift (Str.head f1) ;;
  if Ascii.eqb c "P" then
    let format := Str.remove Chr.backslash (Str.tail f1) in
    match Dict.get format knownformats with
    | Some ty => append_printformat (format, ty)
    | None => append_printformat (format, guess_type format)
    end
  else addunknown "P" (Str.chr c).

(** [self.data[(x, y)] = val] *)
Definition write_cell (xy : Z * Z) (val : string) : M unit :=
  fun s => let '(o, tb) := Table.setitem xy val (data s) in (o, set_data tb s).

(** [re.split("(?i);(?=[a-z])", line)]: the line is cut at every
    semicolon that a letter follows; the semicolon is dropped. *)
Fixpoint split_fields (line : string) : list string :=
  match line with
  | EmptyString => [EmptyString]
  | String c rest =>
      let follows := match rest with
                     | String d _ => Chr.is_letter d
                     | EmptyString => false
                     end in
      if Ascii.eqb c ";" && follows then EmptyString :: split_fields rest
      else match split_fields rest with
           | field :: fields => String c field :: fields
           | [] => [Str.chr c]
           end
  end.

(** [re.sub("[\r\n]+", "\n", text)]: [in_run] tells that the previous
    character was a line break already replaced. *)
Fixpoint join_breaks (in_run : bool) (text : string) : string :=
  match text with
  | EmptyString => EmptyString
  | String c text' =>
      if Ascii.eqb c Chr.cr || Ascii.eqb c Chr.lf
      then if in_run then join_breaks true text'
           else String Chr.lf (join_breaks true text')
      else String c (join_breaks false text')
  end.

(** [text.split("\n")] *)
Fixpoint split_lines (text : string) : list string :=
  match text with
  | EmptyString => [EmptyString]
  | String c rest =>
      if Ascii.eqb c Chr.lf then EmptyString :: split_lines rest
      else match split_lines rest with
           | line :: lines => String c line :: lines
           | [] => [Str.chr c]
           end
  end.

Section WithTime.
(** The [time] module of the host. *)
Variable time : HostTime.lib.

(** The seconds [mktime(datebase) + float(val) * 24 * 60 * 60], computed in
    doubles from left to right. *)
Definition seconds_after (base n : Z) : outcome Double.t :=
  match Double.of_int n with
  | Ok days =>
      Ok (Double.add (Double.round base)
            (Double.mul (Double.mul (Double.mul days 24) 60) 60))
  | Raise e => Raise e
  | Beyond => Beyond
  end.

(** The body of the loop of [_c_field], run on one sub-field.  An infinite
    number of seconds is refused by [localtime] on every host. *)
Definition c_subfield (f : string) : M unit :=
  ftd <- lift (Str.head f) ;;
  let val := Str.tail f in
  if Ascii.eqb ftd "X" then (n <- int val ;; modify (set_curx n))
  else if Ascii.eqb ftd "Y" then (n <- int val ;; modify (set_cury n))
  else if Ascii.eqb ftd "K" then
    (val <- eval (escape val) ;;
     s <- get ;;
     val <- match val with
            | Py.VInt n =>
                if String.eqb (currenttype s) "date" then
                  base <- lift (HostTime.mktime time (datebase s)) ;;
                  secs <- lift (seconds_after base n) ;;
                  date <- lift (match secs with
                                | Double.Finite t => HostTime.localtime time t
                                | Double.Infinite => Raise OverflowError
                                end) ;;
                  text <- lift (HostTime.strftime time date_output date) ;;
                  ret (Py.VStr text)
                else ret val
            | _ => ret val
            end ;;
     write_cell (curx s, cury s) (Py.format_s val))
  else addunknown "C" (Str.chr ftd).

(** [SYLK._c_field] *)
Definition _c_field (fields : list string) : M unit :=
  for_each c_subfield (tail fields).

(** [SYLK.parseline] *)
Definition parseline (line : string) : M unit :=
  let fields := split_fields line in
  tag <- lift (Py.getitem fields 0) ;;
  (if String.eqb tag "ID" then _id_field fields else ret tt) ;;;
  if String.eqb tag "F" then _f_field fields
  else if String.eqb tag "C" then _c_field fields
  else if String.eqb tag "P" then _p_fields fields
  else for_each (fun f => addunknown tag f) (tail fields).

(** [SYLK.parse], given the text [stream.read()] returns. *)
Definition parse (text : string) : M unit :=
  for_each parseline (split_lines (join_breaks false text)).

(** The lines of a document fed to [parseline] one after the other. *)
Definition parselines (lines : list string) : M unit := for_each parseline lines.
End WithTime.

(** [SYLK.__iter__] *)
Definition iter (s : t) : list (list string) := Table.iter (data s).
End SYLK.

(** * Vocabulary of the properties *)

(** The rows once the [while] loop of [__setitem__] has run. *)
Definition grown (x y : Z) (rs : list (list string)) : list (list string) :=
  rs ++ replicate (Z.to_nat (y - Z.of_nat (length rs))) (Table.blanks x).

(** Coordinates are 1-based. *)
Definition one_based (w : Z * Z * string) : Prop := 1 <= w.1.1 ∧ 1 <= w.1.2.

(** Rows only get longer: every row of [tb] is still there in [tb'], at
    least as wide. *)
Definition widens (tb tb' : Table.t) : Prop :=
  ∀ i row, Table.rows tb !! i = Some row →
           ∃ row', Table.rows tb' !! i = Some row' ∧ (length row <= length row')%nat.

(** The decision list the specification gives for a format pattern that is
    not a built-in one: the rules in order, the first whose condition holds
    deciding. *)
Fixpoint first_match (rules : list (bool * string)) (otherwise : string) : string :=
  match rules with
  | [] => otherwise
  | (holds, kind) :: rules' => if holds then kind else first_match rules' otherwise
  end.

Definition kind_by_priority (pattern : string) : string :=
  let has (c : ascii) := Str.contains c pattern in
  first_match
    [ ((has "y"%char || has "d"%char) && has "h"%char, "datetime");
      (has "y"%char || has "d"%char, "date");
      (has "h"%char, "time");
      (has "."%char && has "0"%char, "float");
      (has "0"%char, "int") ]
    "string".



(** The unknown-field report holds the key [sub] under the tag [tag]. *)
Definition recorded (tag sub : string) (s : SYLK.t) : Prop :=
  ∃ d, Dict.get tag (SYLK.unknown s) = Some d ∧ Dict.get sub d = Some 1.

(** The report of [s'] is the report of [s] with the keys [subs] added
    under the tag [tag] and nothing else: the entries of the other tags
    are the same, and under [tag] the keys are those there were and those
    of [subs]. *)
Definition report_adds (tag : string) (subs : list string) (s s' : SYLK.t) : Prop :=
  (∀ t, t ≠ tag → Dict.get t (SYLK.unknown s') = Dict.get t (SYLK.unknown s)) ∧
  (∀ k, recorded tag k s' ↔ recorded tag k s ∨ In k subs).

(** The run stays within the fragment of Python that is modelled. *)
Definition modelled {A : Type} (run : outcome A * SYLK.t) : Prop := run.1 ≠ Beyond.

(** The escaping step as the specification words it: a token that starts
    with a double quote has every doubled quote inside it reduced to one
    quote and stays between quotes. *)
Fixpoint unescape_doubled (s : string) : string :=
  match s with
  | String c (String d rest as s') =>
      if Ascii.eqb c Chr.dquote && Ascii.eqb d Chr.dquote
      then String Chr.dquote (unescape_doubled rest)
      else String c (unescape_doubled s')
  | other => other
  end.

Definition escape_as_specified (s : string) : string :=
  if String.eqb (Str.take 1 s) SYLK.q
  then SYLK.q ++ unescape_doubled (Str.inner s) ++ SYLK.q
  else s.

(** No backslash, line break or null character. *)
Fixpoint plain (s : string) : bool :=
  match s with
  | EmptyString => true
  | String c s' =>
      negb (Ascii.eqb c Chr.backslash || Ascii.eqb c Chr.lf
            || Ascii.eqb c Chr.cr || Ascii.eqb c Chr.nul)
      && plain s'
  end.

(** [tb.rows[y - 1][x - 1]] as Python evaluates it, negative indices
    included. *)
Definition read_back (tb : Table.t) (x y : Z) : outcome string :=
  match Py.getitem (Table.rows tb) (y - 1) with
  | Ok row => Py.getitem row (x - 1)
  | Raise e => Raise e
  | Beyond => Beyond
  end.

(** A field that begins with an ASCII letter. *)
Definition starts_with_letter (f : string) : bool :=
  match f with
  | String c _ => Chr.is_letter c
  | EmptyString => false
  end.

(** A method that relates every state to the state it reaches, whatever
    its outcome. *)
Definition keeps {A : Type} (R : relation SYLK.t) (m : SYLK.M A) : Prop :=
  ∀ s, R s (m s).2.

(** What a format-reference record leaves alone. *)
Definition f_frame (s s' : SYLK.t) : Prop :=
  SYLK.data s' = SYLK.data s ∧ SYLK.printformats s' = SYLK.printformats s ∧
  SYLK.datebase s' = SYLK.datebase s.

(** What a format-definition record leaves alone. *)
Definition p_frame (s s' : SYLK.t) : Prop :=
  SYLK.data s' = SYLK.data s ∧ SYLK.datebase s' = SYLK.datebase s ∧
  SYLK.curx s' = SYLK.curx s ∧ SYLK.cury s' = SYLK.cury s ∧
  SYLK.currentformat s' = SYLK.currentformat s ∧
  SYLK.currenttype s' = SYLK.currenttype s.

(** What a cell-value record leaves alone. *)
Definition c_frame (s s' : SYLK.t) : Prop :=
  SYLK.printformats s' = SYLK.printformats s ∧ SYLK.datebase s' = SYLK.datebase s ∧
  SYLK.currentformat s' = SYLK.currentformat s ∧
  SYLK.currenttype s' = SYLK.currenttype s.

(** The registry of formats only grows at its end. *)
Definition registry_grows (s s' : SYLK.t) : Prop :=
  ∃ extra, SYLK.printformats s' = (SYLK.printformats s ++ extra)%list.

(** The table only widens. *)
Definition table_widens (s s' : SYLK.t) : Prop := widens (SYLK.data s) (SYLK.data s').

(** The six kinds a format can have. *)
Definition kinds : list string := ["string"; "int"; "float"; "date"; "time"; "datetime"].

Definition registry_valid (s : SYLK.t) : Prop :=
  Forall (λ entry : string * string, In entry.2 kinds) (SYLK.printformats s).

Definition keeps_registry_valid (s s' : SYLK.t) : Prop :=
  registry_valid s → registry_valid s'.

(** A carriage return or a line feed. *)
Definition is_break (c : ascii) : bool := Ascii.eqb c Chr.cr || Ascii.eqb c Chr.lf.

(** The text ends with a line break ([b] tells it for the empty text). *)
Fixpoint ends_in_break (b : bool) (text : string) : bool :=
  match text with
  | EmptyString => b
  | String c text' => ends_in_break (is_break c) text'
  end.

(** No carriage return, and no line feed next to another ([after] tells
    that a line feed comes just before the text). *)
Fixpoint single_breaks (after : bool) (text : string) : bool :=
  match text with
  | EmptyString => true
  | String c text' =>
      negb (Ascii.eqb c Chr.cr)
      && (if Ascii.eqb c Chr.lf then negb after && single_breaks true text'
          else single_breaks false text')
  end.

(** Every line but the last is non-empty, the first one too unless
    [exempt]. *)
Fixpoint inner_lines_nonempty (exempt : bool) (lines : list string) : Prop :=
  match lines with
  | [] => True
  | line :: lines' =>
      match lines' with
      | [] => True
      | _ => (exempt = true ∨ line ≠ EmptyString) ∧ inner_lines_nonempty false lines'
      end
  end.

(** The number a run of decimal digits denotes after the digits read so
    far denote [acc]. *)
Fixpoint uint_acc (d : Decimal.uint) (acc : Z) : Z :=
  match d with
  | Decimal.Nil => acc
  | Decimal.D0 d => uint_acc d (10 * acc + 0)
  | Decimal.D1 d => uint_acc d (10 * acc + 1)
  | Decimal.D2 d => uint_acc d (10 * acc + 2)
  | Decimal.D3 d => uint_acc d (10 * acc + 3)
  | Decimal.D4 d => uint_acc d (10 * acc + 4)
  | Decimal.D5 d => uint_acc d (10 * acc + 5)
  | Decimal.D6 d => uint_acc d (10 * acc + 6)
  | Decimal.D7 d => uint_acc d (10 * acc + 7)
  | Decimal.D8 d => uint_acc d (10 * acc + 8)
  | Decimal.D9 d => uint_acc d (10 * acc + 9)
  end.

(** The number of decimal digits of an integer. *)
Definition digits (n : Z) : Z := Z.of_nat (String.length (Str.of_Z (Z.abs n))).

(** Digits and minus signs only. *)
Fixpoint numeral_chars (s : string) : bool :=
  match s with
  | EmptyString => true
  | String c s' => (Chr.is_digit c || Ascii.eqb c "-") && numeral_chars s'
  end.

(** * Properties *)

(** ** Strings *)

Lemma append_empty (s : string) : s ++ EmptyString = s.
Proof. induction s as [|c s IH]; simpl; [done|]. by rewrite IH. Qed.

Lemma append_assoc (s1 s2 s3 : string) : (s1 ++ s2) ++ s3 = s1 ++ (s2 ++ s3).
Proof. induction s1 as [|c s1 IH]; simpl; [done|]. by rewrite IH. Qed.

(** ** The grid *)

Section TableFacts.
Implicit Types (tb : Table.t) (rs : list (list string)) (row : list string).
Implicit Types (x y : Z) (val : string).

(** With the fuel [__setitem__] gives it, the loop runs until its guard
    fails. *)
Lemma grow_enough fuel x y rs :
  (Z.to_nat (y - Z.of_nat (length rs)) <= fuel)%nat →
  Table.grow fuel x y rs = grown x y rs.
Proof.
  unfold grown. revert rs. induction fuel as [|fuel IH]; intros rs Hfuel; simpl.
  - replace (Z.to_nat _) with 0%nat by lia. simpl. by rewrite app_nil_r.
  - destruct (Z.ltb_spec (Z.of_nat (length rs)) y) as [Hlt|Hge].
    + rewrite IH; rewrite length_app; simpl; [|lia].
      replace (Z.to_nat (y - Z.of_nat (length rs)))
        with (S (Z.to_nat (y - Z.of_nat (length rs + 1)))) by lia.
      simpl. by rewrite <- app_assoc.
    + replace (Z.to_nat _) with 0%nat by lia. simpl. by rewrite app_nil_r.
Qed.

Lemma grown_length x y rs :
  Z.of_nat (length (grown x y rs)) = Z.max y (Z.of_nat (length rs)).
Proof. unfold grown. rewrite length_app, length_replicate. lia. Qed.

Lemma blanks_length n : Z.of_nat (length (Table.blanks n)) = Z.max 0 n.
Proof. unfold Table.blanks. rewrite length_replicate. lia. Qed.

Lemma blanks_lookup n j c : Table.blanks n !! j = Some c → c = " ".
Proof. unfold Table.blanks. intros H%lookup_replicate_1. tauto. Qed.

Lemma index_in_range (len : nat) (i : Z) :
  0 <= i < Z.of_nat len → Py.index len i = Some (Z.to_nat i).
Proof.
  intros H. unfold Py.index.
  destruct (Z.leb_spec 0 i); [|lia]. destruct (Z.ltb_spec i (Z.of_nat len)); [|lia].
  done.
Qed.

(** A write at a 1-based coordinate never raises: it returns the grown
    rows, with the target row widened and the cell stored when the value
    is not blank. *)
Lemma setitem_1based x y val tb :
  1 <= x → 1 <= y →
  ∃ row,
    grown x y (Table.rows tb) !! Z.to_nat (y - 1) = Some row ∧
    Table.setitem (x, y) val tb =
      (Ok tt,
       {| Table.rows :=
            if Table.nonblank val
            then <[Z.to_nat (y - 1) :=
                     <[Z.to_nat (x - 1) := val]>
                       (row ++ Table.blanks (x - Z.of_nat (length row)))%list]>
                   (grown x y (Table.rows tb))
            else grown x y (Table.rows tb) |}).
Proof.
  intros Hx Hy. unfold Table.setitem. rewrite grow_enough by lia.
  set (rs := grown x y (Table.rows tb)).
  assert (Hlen : y <= Z.of_nat (length rs)) by (unfold rs; rewrite grown_length; lia).
  rewrite index_in_range by lia.
  destruct (lookup_lt_is_Some_2 rs (Z.to_nat (y - 1))) as [row Hrow]; [lia|].
  exists row. split; [done|]. rewrite Hrow.
  destruct (Table.nonblank val); [|done].
  unfold Table._extend_row.
  destruct (Z.ltb_spec (Z.of_nat (length row)) x) as [Hlt|Hge].
  - rewrite index_in_range; [done|].
    rewrite length_app. pose proof (blanks_length (x - Z.of_nat (length row))). lia.
  - rewrite index_in_range by lia.
    replace (Table.blanks (x - Z.of_nat (length row))) with (@nil string).
    + by rewrite app_nil_r.
    + unfold Table.blanks. by replace (Z.to_nat _) with 0%nat by lia.
Qed.
Lemma grown_lookup x y rs i row :
  grown x y rs !! i = Some row → rs !! i = Some row ∨ row = Table.blanks x.
Proof.
  unfold grown. rewrite lookup_app. destruct (rs !! i); [by left|].
  intros H%lookup_replicate_1. right. tauto.
Qed.

Lemma grown_keeps x y rs i row :
  rs !! i = Some row → grown x y rs !! i = Some row.
Proof. apply lookup_app_l_Some. Qed.

(** A blank value, at any coordinate and whatever the outcome, only
    appends rows. *)
Lemma setitem_blank x y val tb :
  Table.nonblank val = false →
  (Table.setitem (x, y) val tb).2 =
    {| Table.rows := grown x y (Table.rows tb) |}.
Proof.
  intros Hb. unfold Table.setitem. rewrite grow_enough by lia. rewrite Hb.
  destruct (Py.index _ _) as [k|]; [|done]. by destruct (_ !! k).
Qed.

(** What one write at a 1-based coordinate guarantees. *)
Lemma setitem_step x y val tb :
  1 <= x → 1 <= y →
  ∃ tb',
    Table.setitem (x, y) val tb = (Ok tt, tb') ∧
    y <= Z.of_nat (length (Table.rows tb')) ∧
    (∀ i row, Table.rows tb !! i = Some row →
              ∃ row', Table.rows tb' !! i = Some row' ∧ (length row <= length row')%nat) ∧
    (Table.nonblank val = true →
     ∃ row', Table.rows tb' !! Z.to_nat (y - 1) = Some row' ∧
             x <= Z.of_nat (length row') ∧
             row' !! Z.to_nat (x - 1) = Some val) ∧
    (∀ i j row' c,
       Table.rows tb' !! i = Some row' → row' !! j = Some c →
       (i = Z.to_nat (y - 1) ∧ j = Z.to_nat (x - 1) ∧ Table.nonblank val = true ∧ c = val)
       ∨ c = " "
       ∨ ∃ row, Table.rows tb !! i = Some row ∧ row !! j = Some c).
Proof.
  intros Hx Hy. destruct (setitem_1based x y val tb Hx Hy) as (row & Hrow & ->).
  eexists. split; [done|]. simpl.
  set (rs := grown x y (Table.rows tb)) in *.
  set (k := Z.to_nat (y - 1)) in *. set (j0 := Z.to_nat (x - 1)).
  set (wide := (row ++ Table.blanks (x - Z.of_nat (length row)))%list).
  assert (Hlen : y <= Z.of_nat (length rs)) by (unfold rs; rewrite grown_length; lia).
  assert (Hk : (k < length rs)%nat) by (unfold k; lia).
  assert (Hwide : x <= Z.of_nat (length wide)).
  { unfold wide. rewrite length_app.
    pose proof (blanks_length (x - Z.of_nat (length row))). lia. }
  assert (Hj0 : (j0 < length wide)%nat) by (unfold j0; lia).
  destruct (Table.nonblank val) eqn:Hnb.
  - split; [by rewrite length_insert|]. split; [|split].
    + intros i r Hr. apply (grown_keeps x y) in Hr. fold rs in Hr.
      destruct (decide (i = k)) as [->|Hne].
      * rewrite list_lookup_insert_eq by done. eexists. split; [done|].
        rewrite length_insert. unfold wide. rewrite length_app.
        assert (r = row) as -> by congruence. lia.
      * rewrite list_lookup_insert_ne by done. eauto.
    + intros _. rewrite list_lookup_insert_eq by done. eexists. split; [done|].
      rewrite length_insert. split; [done|]. by apply list_lookup_insert_eq.
    + intros i j r c Hr Hc.
      apply list_lookup_insert_Some in Hr as [(<- & <- & _)|[Hne Hr]].
      * apply list_lookup_insert_Some in Hc as [(<- & <- & _)|[Hne Hc]]; [by left|].
        unfold wide in Hc. rewrite lookup_app in Hc.
        destruct (row !! j) eqn:Hrj.
        -- destruct (grown_lookup _ _ _ _ _ Hrow) as [Hold| ->].
           ++ right; right. exists row. split; [done|]. congruence.
           ++ right; left. apply blanks_lookup in Hrj. congruence.
        -- right; left. by eapply blanks_lookup.
      * destruct (grown_lookup _ _ _ _ _ Hr) as [Hold| ->].
        -- right; right. eauto.
        -- right; left. by eapply blanks_lookup.
  - split; [done|]. split; [|split].
    + intros i r Hr. exists r. split; [by apply grown_keeps|done].
    + done.
    + intros i j r c Hr Hc.
      destruct (grown_lookup _ _ _ _ _ Hr) as [Hold| ->].
      * right; right. eauto.
      * right; left. by eapply blanks_lookup.
Qed.
Lemma nonblank_true val :
  Table.nonblank val = true ↔ val ≠ EmptyString ∧ val ≠ " ".
Proof.
  unfold Table.nonblank. rewrite negb_true_iff, orb_false_iff.
  by rewrite !String.eqb_neq.
Qed.

Lemma nonblank_false val :
  Table.nonblank val = false ↔ val = EmptyString ∨ val = " ".
Proof.
  unfold Table.nonblank. rewrite negb_false_iff, orb_true_iff.
  by rewrite !String.eqb_eq.
Qed.

(** The invariant of a run of writes at 1-based coordinates, from any
    table: no write raises, rows only widen, each write leaves its row in
    place (wide enough when its value is not blank), and every cell is a
    non-blank value written there, a blank, or a cell of the initial
    table. *)
Lemma setitems_invariant ws tb :
  Forall one_based ws →
  ∃ tb',
    Table.setitems ws tb = (Ok tt, tb') ∧
    widens tb tb' ∧
    (∀ x y v, In (x, y, v) ws →
       y <= Z.of_nat (length (Table.rows tb')) ∧
       (Table.nonblank v = true →
        ∃ row, Table.rows tb' !! Z.to_nat (y - 1) = Some row ∧ x <= Z.of_nat (length row))) ∧
    (∀ i j row' c,
       Table.rows tb' !! i = Some row' → row' !! j = Some c →
       (∃ x y v, In (x, y, v) ws ∧ Table.nonblank v = true ∧
                 i = Z.to_nat (y - 1) ∧ j = Z.to_nat (x - 1))
       ∨ c = " "
       ∨ ∃ row, Table.rows tb !! i = Some row ∧ row !! j = Some c).
Proof.
  intros Hws. revert tb. induction Hws as [|[[x y] v] ws [Hx Hy] _ IH]; intros tb.
  - exists tb. split; [done|]. split; [intros i row ?; eauto|].
    split; [intros ??? []|]. intros i j row c ??. right; right. eauto.
  - simpl in Hx, Hy. destruct (setitem_step x y v tb Hx Hy)
      as (tb1 & Hrun & Hrows & Hwide & Hstored & Hprov).
    destruct (IH tb1) as (tb' & Hrun' & Hwide' & Hwritten' & Hprov').
    exists tb'. cbn [Table.setitems]. rewrite Hrun. split; [done|]. split; [|split].
    + intros i row Hrow. destruct (Hwide i row Hrow) as (row1 & Hrow1 & ?).
      destruct (Hwide' i row1 Hrow1) as (row2 & Hrow2 & ?).
      exists row2. split; [done|lia].
    + intros x0 y0 v0 [[= <- <- <-]|Hin]; [|by apply Hwritten'].
      split.
      * destruct (lookup_lt_is_Some_2 (Table.rows tb1) (Z.to_nat (y - 1)))
          as [row1 Hrow1]; [lia|].
        destruct (Hwide' _ _ Hrow1) as (row2 & Hrow2%lookup_lt_Some & _). lia.
      * intros Hnb. destruct (Hstored Hnb) as (row1 & Hrow1 & Hlen & _).
        destruct (Hwide' _ _ Hrow1) as (row2 & Hrow2 & ?).
        exists row2. split; [done|lia].
    + intros i j row' c Hrow' Hc.
      destruct (Hprov' i j row' c Hrow' Hc)
        as [(x0 & y0 & v0 & ? & ?)|[->|(row1 & Hrow1 & Hc1)]].
      * left. exists x0, y0, v0. split; [by right|done].
      * by right; left.
      * destruct (Hprov i j row1 c Hrow1 Hc1) as [(-> & -> & ? & ->)|[->|?]].
        -- left. exists x, y, v. split; [by left|done].
        -- by right; left.
        -- by right; right.
Qed.

Lemma index_Some (len : nat) (i : Z) (k : nat) :
  Py.index len i = Some k → (k < len)%nat.
Proof.
  unfold Py.index.
  destruct (Z.leb_spec 0 i), (Z.ltb_spec i (Z.of_nat len)), (Z.ltb_spec i 0),
    (Z.leb_spec 0 (i + Z.of_nat len)); simpl; intros [= <-]; lia.
Qed.

(** Whatever the coordinate, a write of a non-blank value that does not
    raise is read back at that coordinate. *)
Lemma setitem_stored x y val tb tb' :
  Table.nonblank val = true →
  Table.setitem (x, y) val tb = (Ok tt, tb') →
  read_back tb' x y = Ok val.
Proof.
  intros Hnb. unfold Table.setitem. rewrite grow_enough by lia. rewrite Hnb.
  set (rs := grown x y (Table.rows tb)).
  destruct (Py.index (length rs) (y - 1)) as [k|] eqn:Hk; [|done].
  destruct (rs !! k) as [row|] eqn:Hrow; [|done].
  set (row' := if Z.of_nat (length row) <? x
               then Table._extend_row row (x - Z.of_nat (length row)) else row).
  destruct (Py.index (length row') (x - 1)) as [j|] eqn:Hj; [|done].
  intros [= <-]. unfold read_back, Py.getitem. simpl.
  rewrite !length_insert, Hk.
  rewrite list_lookup_insert_eq by (by eapply index_Some).
  rewrite length_insert, Hj.
  by rewrite list_lookup_insert_eq by (by eapply index_Some).
Qed.

Lemma cell_lookup tb x y c :
  Table.cell tb x y = Some c ↔
  1 <= x ∧ 1 <= y ∧
  ∃ row, Table.rows tb !! Z.to_nat (y - 1) = Some row ∧ row !! Z.to_nat (x - 1) = Some c.
Proof.
  unfold Table.cell.
  destruct (Z.leb_spec 1 x), (Z.leb_spec 1 y); simpl;
    try (split; [done|intros (? & ? & _); lia]).
  destruct (Table.rows tb !! Z.to_nat (y - 1)) as [row|]; simpl.
  - split; [intros; eauto|]. by intros (_ & _ & ? & [= <-] & ?).
  - split; [done|]. by intros (_ & _ & ? & ? & _).
Qed.
End TableFacts.

(** C2, as the code has it.  For every finite sequence of cell writes at
    1-based coordinates, starting from the empty table: no write raises;
    afterwards the table has at least [y] rows for every written [y]; for
    every [(x, y)] written with a value that is neither empty nor a single
    space, the [y]-th row has at least [x] cells; and every cell to which no
    such value was written reads as the single blank space. *)
Theorem writes_grow_the_table (ws : list (Z * Z * string)) :
  Forall one_based ws →
  ∃ tb,
    Table.setitems ws Table.init = (Ok tt, tb) ∧
    (∀ x y v, In (x, y, v) ws → y <= Z.of_nat (length (Table.rows tb))) ∧
    (∀ x y v, In (x, y, v) ws → v ≠ EmptyString → v ≠ " " →
       ∃ row, Table.rows tb !! Z.to_nat (y - 1) = Some row ∧ x <= Z.of_nat (length row)) ∧
    (∀ x y c, Table.cell tb x y = Some c →
       (∀ v, In (x, y, v) ws → v = EmptyString ∨ v = " ") →
       c = " ").
Proof.
  intros Hws.
  destruct (setitems_invariant ws Table.init Hws) as (tb & Hrun & _ & Hwritten & Hprov).
  exists tb. split; [done|]. split; [|split].
  - intros x y v Hin. by apply (Hwritten x y v).
  - intros x y v Hin Hne Hsp. apply (Hwritten x y v Hin). by apply nonblank_true.
  - intros x y c (Hx & Hy & row & Hrow & Hc)%cell_lookup Hblank.
    destruct (Hprov _ _ _ _ Hrow Hc)
      as [(x0 & y0 & v0 & Hin & Hnb & Hi & Hj)|[->|(? & [=] & _)]]; [|done].
    assert (one_based (x0, y0, v0)) as [Hx0 Hy0].
    { rewrite Forall_forall in Hws. apply Hws. by apply list_elem_of_In. }
    simpl in Hx0, Hy0. assert (x0 = x) as -> by lia. assert (y0 = y) as -> by lia.
    apply nonblank_true in Hnb as [? ?]. destruct (Hblank v0 Hin); done.
Qed.

Lemma writes_grow_the_table_witness :
  ∃ tb,
    Table.setitems [(2, 3, "a"); (1, 1, " ")] Table.init = (Ok tt, tb) ∧
    (∀ x y v, In (x, y, v) [(2, 3, "a"); (1, 1, " ")] →
       y <= Z.of_nat (length (Table.rows tb))) ∧
    (∀ x y v, In (x, y, v) [(2, 3, "a"); (1, 1, " ")] → v ≠ EmptyString → v ≠ " " →
       ∃ row, Table.rows tb !! Z.to_nat (y - 1) = Some row ∧ x <= Z.of_nat (length row)) ∧
    (∀ x y c, Table.cell tb x y = Some c →
       (∀ v, In (x, y, v) [(2, 3, "a"); (1, 1, " ")] → v = EmptyString ∨ v = " ") →
       c = " ").
Proof.
  apply (writes_grow_the_table [(2, 3, "a"); (1, 1, " ")]).
  repeat constructor; simpl; lia.
Defined.

(** C2 as stated fails: a blank value written at column 3 of a row that
    already exists with one cell leaves that row one cell wide. *)
Lemma blank_write_keeps_row_short :
  Forall one_based [(1, 1, "a"); (3, 1, " ")] ∧
  In (3, 1, " ") [(1, 1, "a"); (3, 1, " ")] ∧
  ∃ tb,
    Table.setitems [(1, 1, "a"); (3, 1, " ")] Table.init = (Ok tt, tb) ∧
    ¬ ∃ row, Table.rows tb !! Z.to_nat (1 - 1) = Some row ∧ 3 <= Z.of_nat (length row).
Proof.
  split; [repeat constructor; simpl; lia|]. split; [right; by left|].
  eexists. split; [reflexivity|]. simpl. intros (row & [= <-] & Hlen). simpl in Hlen. lia.
Qed.

(** C8.  A write of a value that is neither empty nor a single space,
    at any coordinate at which it does not raise, is read back at that
    coordinate; at a 1-based coordinate it never raises, and the cell read
    from the rows is the value.  Writing an empty or single-space value, at
    any coordinate and whether or not the write raises, leaves every
    existing row as it was (same length, same cells). *)
Theorem write_then_read :
  (∀ tb x y v tb',
     v ≠ EmptyString → v ≠ " " →
     Table.setitem (x, y) v tb = (Ok tt, tb') →
     read_back tb' x y = Ok v) ∧
  (∀ tb x y v,
     1 <= x → 1 <= y → v ≠ EmptyString → v ≠ " " →
     ∃ tb', Table.setitem (x, y) v tb = (Ok tt, tb') ∧ Table.cell tb' x y = Some v) ∧
  (∀ tb x y v o tb',
     v = EmptyString ∨ v = " " →
     Table.setitem (x, y) v tb = (o, tb') →
     (length (Table.rows tb) <= length (Table.rows tb'))%nat ∧
     ∀ i row, Table.rows tb !! i = Some row → Table.rows tb' !! i = Some row).
Proof.
  split; [|split].
  - intros tb x y v tb' Hne Hsp. apply setitem_stored. by apply nonblank_true.
  - intros tb x y v Hx Hy Hne Hsp.
    destruct (setitem_step x y v tb Hx Hy) as (tb' & Hrun & _ & _ & Hstored & _).
    exists tb'. split; [done|].
    destruct Hstored as (row & Hrow & _ & Hc); [by apply nonblank_true|].
    apply cell_lookup. eauto.
  - intros tb x y v o tb' Hb%nonblank_false Hrun.
    pose proof (setitem_blank x y v tb Hb) as Htb. rewrite Hrun in Htb. simpl in Htb.
    subst tb'. simpl. split.
    + unfold grown. rewrite length_app. lia.
    + intros i row. apply grown_keeps.
Qed.

Lemma write_then_read_witness :
  read_back {| Table.rows := [["a"; "v"]] |} 0 0 = Ok "v" ∧
  (∃ tb', Table.setitem (2, 2) "v" {| Table.rows := [["a"]] |} = (Ok tt, tb') ∧
          Table.cell tb' 2 2 = Some "v") ∧
  ((length [["a"; "b"]] <= length [["a"; "b"]])%nat ∧
   ∀ i row, [["a"; "b"]] !! i = Some row → [["a"; "b"]] !! i = Some row).
Proof.
  split; [|split].
  - apply (proj1 write_then_read {| Table.rows := [["a"; "b"]] |} 0 0 "v");
      [discriminate|discriminate|reflexivity].
  - apply (proj1 (proj2 write_then_read) {| Table.rows := [["a"]] |} 2 2 "v");
      [lia|lia|discriminate|discriminate].
  - apply (proj2 (proj2 write_then_read) {| Table.rows := [["a"; "b"]] |} 5 1 " " (Ok tt)
             {| Table.rows := [["a"; "b"]] |}); [right; reflexivity|reflexivity].
Defined.

(** ** The parser *)

Section ParserFacts.
Variable time : HostTime.lib.
Implicit Types (s : SYLK.t) (fields : list string).

Lemma getitem_lookup {A : Type} (l : list A) (k : nat) (a : A) :
  l !! k = Some a → Py.getitem l (Z.of_nat k) = Ok a.
Proof.
  intros Hk. unfold Py.getitem. pose proof (lookup_lt_Some _ _ _ Hk).
  rewrite index_in_range by lia. by rewrite Nat2Z.id, Hk.
Qed.

Lemma getitem_first {A : Type} (a : A) (l : list A) : Py.getitem (a :: l) 0 = Ok a.
Proof. by apply (getitem_lookup (a :: l) 0). Qed.

Lemma getitem_second {A : Type} (a b : A) (l : list A) :
  Py.getitem (a :: b :: l) 1 = Ok b.
Proof. by apply (getitem_lookup (a :: b :: l) 1). Qed.

Lemma dict_get_In {V : Type} (k : string) (v : V) (d : Dict.t V) :
  Dict.get k d = Some v → In (k, v) d.
Proof.
  induction d as [|[k' v'] d IH]; simpl; [done|].
  destruct (String.eqb_spec k k') as [->|_]; [intros [= ->]; by left|].
  intros H. right. by apply IH.
Qed.

(** No built-in format holds a [y] or [d], an [h] and a [0] at once. *)
Lemma knownformats_not_mixed format :
  (Str.contains "y" format || Str.contains "d" format) = true →
  Str.contains "h" format = true →
  Str.contains "0" format = true →
  Dict.get format SYLK.knownformats = None.
Proof.
  intros Hyd Hh Hz. destruct (Dict.get format SYLK.knownformats) as [ty|] eqn:Hget; [|done].
  apply dict_get_In in Hget.
  assert (Forall (λ kv : string * string,
            ((Str.contains "y" kv.1 || Str.contains "d" kv.1)
             && Str.contains "h" kv.1 && Str.contains "0" kv.1) = false)
            SYLK.knownformats) as Hall
    by (vm_compute; repeat constructor).
  rewrite Forall_forall in Hall. apply list_elem_of_In, Hall in Hget.
  simpl in Hget. by rewrite Hyd, Hh, Hz in Hget.
Qed.

Lemma bind_ret_tt (m : SYLK.M unit) s : SYLK.bind m (λ _, SYLK.ret tt) s = m s.
Proof. unfold SYLK.bind, SYLK.ret. by destruct (m s) as [[[]| |] ?]. Qed.

Lemma for_each_one {A : Type} (body : A → SYLK.M unit) (a : A) s :
  SYLK.for_each body [a] s = body a s.
Proof. apply bind_ret_tt. Qed.

Lemma for_each_app {A : Type} (body : A → SYLK.M unit) (l1 l2 : list A) s :
  SYLK.for_each body (l1 ++ l2) s =
    SYLK.bind (SYLK.for_each body l1) (λ _, SYLK.for_each body l2) s.
Proof.
  revert s. induction l1 as [|a l1 IH]; intros s; simpl; [done|].
  unfold SYLK.bind. destruct (body a s) as [[[]| |] s1]; [|done..].
  rewrite IH. reflexivity.
Qed.












(** A write at a 1-based cursor of a value that is not blank can be read
    back, and changes nothing but the table. *)
Lemma write_cell_reads (s : SYLK.t) (x y : Z) (val : string) :
  1 <= x → 1 <= y → Table.nonblank val = true →
  ∃ s', SYLK.write_cell (x, y) val s = (Ok tt, s') ∧
        Table.cell (SYLK.data s') x y = Some val ∧
        s' = SYLK.set_data (SYLK.data s') s.
Proof.
  intros Hx Hy Hnb. unfold SYLK.write_cell.
  destruct (setitem_step x y val (SYLK.data s) Hx Hy) as (tb & -> & _ & _ & Hstored & _).
  eexists. split; [done|]. split; [|done]. cbn [SYLK.data SYLK.set_data].
  destruct (Hstored Hnb) as (row & Hrow & _ & Hcell). apply cell_lookup. eauto.
Qed.


Lemma getitem_out_of_range {A : Type} (l : list A) (n : Z) :
  Z.of_nat (length l) <= n ∨ n < - Z.of_nat (length l) →
  Py.getitem l n = Raise IndexError.
Proof.
  intros Hn. unfold Py.getitem, Py.index.
  destruct (Z.leb_spec 0 n), (Z.ltb_spec n (Z.of_nat (length l))),
    (Z.ltb_spec n 0), (Z.leb_spec 0 (n + Z.of_nat (length l))); simpl; try done; lia.
Qed.

(** A negative index within the length counts from the end. *)
Lemma getitem_negative {A : Type} (l : list A) (n : Z) :
  - Z.of_nat (length l) <= n < 0 →
  ∃ a, l !! Z.to_nat (Z.of_nat (length l) + n) = Some a ∧ Py.getitem l n = Ok a.
Proof.
  intros Hn. unfold Py.getitem, Py.index.
  destruct (Z.leb_spec 0 n); [lia|]. simpl.
  destruct (Z.ltb_spec n 0); [|lia]. destruct (Z.leb_spec 0 (n + Z.of_nat (length l))); [|lia].
  simpl. replace (n + Z.of_nat (length l)) with (Z.of_nat (length l) + n) by lia.
  destruct (lookup_lt_is_Some_2 l (Z.to_nat (Z.of_nat (length l) + n))) as [a Ha]; [lia|].
  exists a. by rewrite Ha.
Qed.

(** The sub-field [P] of a format-reference record. *)
Lemma f_subfield_P val n s :
  Py.int val = Some n →
  SYLK.f_subfield (String "P" val) s =
    match Py.getitem (SYLK.printformats s) n with
    | Ok entry => (Ok tt, SYLK.set_current entry.1 entry.2 s)
    | Raise e => (Raise e, s)
    | Beyond => (Beyond, s)
    end.
Proof.
  intros Hint. unfold SYLK.f_subfield, SYLK.bind, SYLK.lift, SYLK.int, SYLK.get.
  cbn -[Py.int Py.getitem]. rewrite Hint. by destruct (Py.getitem _ n).
Qed.



(** The dispatch of [parseline] on the tag of the record. *)
Lemma parseline_F line subs s :
  SYLK.split_fields line = "F" :: subs →
  SYLK.parseline time line s = SYLK.for_each SYLK.f_subfield subs s.
Proof.
  intros Hsplit. unfold SYLK.parseline. rewrite Hsplit.
  unfold SYLK.bind, SYLK.lift. by rewrite getitem_first.
Qed.

Lemma parseline_C line subs s :
  SYLK.split_fields line = "C" :: subs →
  SYLK.parseline time line s = SYLK.for_each (SYLK.c_subfield time) subs s.
Proof.
  intros Hsplit. unfold SYLK.parseline. rewrite Hsplit.
  unfold SYLK.bind, SYLK.lift. by rewrite getitem_first.
Qed.

Lemma parseline_other line tag subs s :
  SYLK.split_fields line = tag :: subs →
  tag ≠ "ID" → tag ≠ "F" → tag ≠ "C" → tag ≠ "P" →
  SYLK.parseline time line s = SYLK.for_each (SYLK.addunknown tag) subs s.
Proof.
  intros Hsplit HID HF HC HP. unfold SYLK.parseline. rewrite Hsplit.
  unfold SYLK.bind, SYLK.lift. rewrite getitem_first.
  apply String.eqb_neq in HID, HF, HC, HP. by rewrite HID, HF, HC, HP.
Qed.

Lemma dict_get_set_eq {V : Type} (k : string) (v : V) (d : Dict.t V) :
  Dict.get k (Dict.set k v d) = Some v.
Proof.
  induction d as [|[k' v'] d IH]; simpl; [by rewrite String.eqb_refl|].
  destruct (String.eqb_spec k k') as [->|Hne]; simpl.
  - by rewrite String.eqb_refl.
  - apply String.eqb_neq in Hne. by rewrite Hne.
Qed.

Lemma dict_get_set_ne {V : Type} (k k' : string) (v : V) (d : Dict.t V) :
  k ≠ k' → Dict.get k' (Dict.set k v d) = Dict.get k' d.
Proof.
  intros Hne. induction d as [|[k0 v0] d IH]; simpl.
  - assert (k' ≠ k) as ->%String.eqb_neq by done. done.
  - destruct (String.eqb_spec k k0) as [->|Hk]; simpl.
    + assert (k' ≠ k0) as ->%String.eqb_neq by done. done.
    + by rewrite IH.
Qed.

(** [addunknown] records its sub-field under its tag, keeps what was
    recorded under that tag, and touches nothing but the report. *)
Lemma addunknown_records tag sub s :
  ∃ s', SYLK.addunknown tag sub s = (Ok tt, s') ∧
        recorded tag sub s' ∧
        (∀ g, recorded tag g s → recorded tag g s') ∧
        s' = SYLK.set_unknown (SYLK.unknown s') s.
Proof.
  eexists. split; [reflexivity|]. unfold recorded. simpl. split; [|split; [|done]].
  - eexists. split; [apply dict_get_set_eq|apply dict_get_set_eq].
  - intros g (d & Hd & Hg). rewrite Hd. simpl. eexists. split; [apply dict_get_set_eq|].
    destruct (String.eqb_spec sub g) as [->|Hne]; [apply dict_get_set_eq|].
    by rewrite dict_get_set_ne.
Qed.

Lemma for_each_addunknown tag subs s :
  ∃ s', SYLK.for_each (SYLK.addunknown tag) subs s = (Ok tt, s') ∧
        (∀ f, In f subs → recorded tag f s') ∧
        (∀ g, recorded tag g s → recorded tag g s') ∧
        s' = SYLK.set_unknown (SYLK.unknown s') s.
Proof.
  revert s. induction subs as [|f subs IH]; intros s.
  - exists s. split; [done|]. split; [intros ? []|]. split; [done|]. by destruct s.
  - destruct (addunknown_records tag f s) as (s1 & Hrun1 & Hrec1 & Hkeep1 & Hs1).
    destruct (IH s1) as (s' & Hrun & Hrec & Hkeep & Hs').
    exists s'. simpl. unfold SYLK.bind. rewrite Hrun1. split; [done|].
    split; [|split].
    + intros g [<-|Hin]; [by apply Hkeep|by apply Hrec].
    + intros g Hg. by apply Hkeep, Hkeep1.
    + rewrite Hs' at 1. rewrite Hs1. by destruct s.
Qed.

Lemma report_adds_same tag subs s0 s s' :
  SYLK.unknown s0 = SYLK.unknown s → report_adds tag subs s0 s' → report_adds tag subs s s'.
Proof. unfold report_adds, recorded. by intros ->. Qed.

(** [addunknown] adds its key under its tag and nothing else. *)
Lemma addunknown_adds tag sub s :
  ∃ s', SYLK.addunknown tag sub s = (Ok tt, s') ∧
        report_adds tag [sub] s s' ∧
        s' = SYLK.set_unknown (SYLK.unknown s') s.
Proof.
  eexists. split; [reflexivity|]. split; [|done]. split; simpl.
  - intros t Ht. by rewrite !dict_get_set_ne.
  - intros k. unfold recorded. simpl. rewrite dict_get_set_eq. split.
    + intros (d & [= <-] & Hk).
      destruct (String.eqb_spec sub k) as [->|Hne]; [right; by left|left].
      rewrite dict_get_set_ne in Hk by done.
      destruct (Dict.get tag (SYLK.unknown s)) as [d|]; [by exists d|done].
    + intros [(d & Hd & Hk)|[->|[]]]; (eexists; split; [done|]).
      * rewrite Hd. simpl.
        destruct (String.eqb_spec sub k) as [->|Hne]; [apply dict_get_set_eq|].
        by rewrite dict_get_set_ne.
      * apply dict_get_set_eq.
Qed.

Lemma for_each_addunknown_adds tag subs s :
  ∃ s', SYLK.for_each (SYLK.addunknown tag) subs s = (Ok tt, s') ∧
        report_adds tag subs s s' ∧
        s' = SYLK.set_unknown (SYLK.unknown s') s.
Proof.
  revert s. induction subs as [|f subs IH]; intros s.
  - exists s. split; [done|]. split; [|by destruct s].
    split; [done|]. intros k. split; [by left|by intros [?|[]]].
  - destruct (addunknown_adds tag f s) as (s1 & Hrun1 & [Hother1 Hkeys1] & Hs1).
    destruct (IH s1) as (s' & Hrun & [Hother Hkeys] & Hs').
    exists s'. simpl. unfold SYLK.bind. rewrite Hrun1. split; [done|]. split; [split|].
    + intros t Ht. by rewrite Hother, Hother1.
    + intros k. rewrite Hkeys, Hkeys1. simpl. tauto.
    + rewrite Hs' at 1. rewrite Hs1. by destruct s.
Qed.

Lemma str_body_plain c (rest : string) :
  Ascii.eqb c Chr.dquote = false → Ascii.eqb c Chr.backslash = false →
  Ascii.eqb c Chr.lf = false → Ascii.eqb c Chr.cr = false →
  Ascii.eqb c Chr.nul = false →
  Py.str_body (String c rest) = String c <$> Py.str_body rest.
Proof.
  intros Hq Hbs Hlf Hcr Hnul. cbn -[Ascii.eqb]. by rewrite Hq, Hbs, Hlf, Hcr, Hnul.
Qed.

Lemma str_body_escaped_quote (rest : string) :
  Py.str_body (String Chr.backslash (String Chr.dquote rest))
  = String Chr.dquote <$> Py.str_body rest.
Proof. reflexivity. Qed.

Lemma sub_quote r (rest : string) :
  Str.sub Chr.dquote r (String Chr.dquote rest) = r ++ Str.sub Chr.dquote r rest.
Proof. reflexivity. Qed.

Lemma sub_other c d r (rest : string) :
  Ascii.eqb c d = false → Str.sub c r (String d rest) = String d (Str.sub c r rest).
Proof. intros H. cbn -[Ascii.eqb]. by rewrite H. Qed.

(** Evaluating an escaped body: each quote of a plain body comes out
    doubled. *)
Lemma str_body_escaped body :
  plain body = true →
  Py.str_body
    (Str.sub Chr.dquote (String Chr.backslash SYLK.q ++ String Chr.backslash SYLK.q) body
     ++ SYLK.q)
  = Some (Str.sub Chr.dquote (SYLK.q ++ SYLK.q) body).
Proof.
  induction body as [|c body IH]; [done|]. intros Hplain.
  cbn -[Ascii.eqb] in Hplain. apply andb_true_iff in Hplain as [Hc Hplain].
  apply negb_true_iff in Hc. rewrite !orb_false_iff in Hc.
  destruct Hc as (((Hbs & Hlf) & Hcr) & Hnul). specialize (IH Hplain).
  destruct (Ascii.eqb_spec c Chr.dquote) as [->|Hq].
  - rewrite !sub_quote. cbn [String.append SYLK.q Str.chr] in IH |- *.
    rewrite !str_body_escaped_quote, IH. reflexivity.
  - apply Ascii.eqb_neq in Hq.
    assert (Ascii.eqb Chr.dquote c = false) as Hq' by (by rewrite Ascii.eqb_sym).
    rewrite !sub_other by done.
    change (String c ?t ++ SYLK.q) with (String c (t ++ SYLK.q)).
    rewrite str_body_plain by done. by rewrite IH.
Qed.

Lemma guess_type_priority format : SYLK.guess_type format = kind_by_priority format.
Proof.
  unfold SYLK.guess_type, kind_by_priority, first_match.
  destruct (Str.contains "y" format), (Str.contains "d" format),
    (Str.contains "h" format), (Str.contains "0" format), (Str.contains "." format);
    reflexivity.
Qed.
End ParserFacts.

(** C1.  Parsing the four lines [ID;PClariWorks], [P;P0.00], [F;P0] and
    [C;X1;Y1;K42] in that order on a fresh document succeeds and leaves the
    string [42] at coordinate (1, 1) of the table, the Mac epoch
    (1904-01-01) as date base, and exactly one registered format, the pair
    ([0.00], [float]). *)
Theorem end_to_end_example (time : HostTime.lib) :
  ∃ s,
    SYLK.parselines time ["ID;PClariWorks"; "P;P0.00"; "F;P0"; "C;X1;Y1;K42"] SYLK.init
      = (Ok tt, s) ∧
    Table.cell (SYLK.data s) 1 1 = Some "42" ∧
    SYLK.iter s = [["42"]] ∧
    SYLK.datebase s = SYLK.macepoch ∧
    (tm_year (SYLK.datebase s), tm_mon (SYLK.datebase s), tm_mday (SYLK.datebase s))
      = (1904, 1, 1) ∧
    SYLK.printformats s = [("0.00", "float")].
Proof. eexists. split; [vm_compute; reflexivity|]. by vm_compute. Qed.

(** The same document read through [parse], as one text whose lines end
    with a line feed. *)
Lemma end_to_end_text (time : HostTime.lib) :
  SYLK.parse time
    ("ID;PClariWorks" ++ Str.chr Chr.lf ++ "P;P0.00" ++ Str.chr Chr.lf ++
     "F;P0" ++ Str.chr Chr.lf ++ "C;X1;Y1;K42" ++ Str.chr Chr.lf) SYLK.init
  = SYLK.parselines time
      ["ID;PClariWorks"; "P;P0.00"; "F;P0"; "C;X1;Y1;K42"; EmptyString] SYLK.init
  ∧ SYLK.parseline time EmptyString = SYLK.ret tt.
Proof. split; reflexivity. Qed.

(** C3.  A format record whose pattern (backslashes removed) is not a
    built-in format registers the pattern with the kind the ordered rules
    give, the first matching rule winning: [y] or [d] with [h] is datetime;
    [y] or [d] is date; [h] is time; [.] with [0] is float; [0] is int;
    anything else is string.  In particular a pattern holding [y], [h], [0]
    and [.] is registered as datetime. *)
Theorem format_kind_by_priority (tag raw : string) (rest : list string) (s : SYLK.t) :
  let pattern := Str.remove Chr.backslash raw in
  let registers kind :=
    SYLK._p_fields (tag :: String "P" raw :: rest) s =
      (Ok tt, SYLK.set_printformats (SYLK.printformats s ++ [(pattern, kind)]) s) in
  (Dict.get pattern SYLK.knownformats = None → registers (kind_by_priority pattern)) ∧
  (Str.contains "y" pattern = true → Str.contains "h" pattern = true →
   Str.contains "0" pattern = true → Str.contains "." pattern = true →
   registers "datetime").
Proof.
  intros pattern registers.
  assert (Hrule : Dict.get pattern SYLK.knownformats = None →
                  registers (kind_by_priority pattern)).
  { intros Hnew. unfold registers, SYLK._p_fields, SYLK.bind, SYLK.lift.
    rewrite getitem_second. remember SYLK.knownformats as known eqn:Hknown.
    simpl. fold pattern. subst known. rewrite Hnew.
    by rewrite guess_type_priority. }
  split; [done|]. intros Hy Hh Hz Hp.
  replace "datetime" with (kind_by_priority pattern).
  - apply Hrule, knownformats_not_mixed; [by rewrite Hy|done|done].
  - unfold kind_by_priority, first_match. by rewrite Hy, Hh.
Qed.

Lemma format_kind_by_priority_witness :
  SYLK._p_fields ["P"; "Pzz0.0"] SYLK.init =
    (Ok tt, SYLK.set_printformats [("zz0.0", "float")] SYLK.init) ∧
  SYLK._p_fields ["P"; "Pyy\hh0.0"] SYLK.init =
    (Ok tt, SYLK.set_printformats [("yyhh0.0", "datetime")] SYLK.init).
Proof.
  split.
  - apply (proj1 (format_kind_by_priority "P" "zz0.0" [] SYLK.init)). reflexivity.
  - apply (proj2 (format_kind_by_priority "P" "yy\hh0.0" [] SYLK.init)); reflexivity.
Defined.




(** C5.  When a format-reference record reaches a sub-field [P] whose
    integer is an index at or beyond the number of registered formats (or
    below minus that number), [parseline] raises [IndexError] to its caller:
    the sub-fields after it are not processed, the document is left as the
    sub-fields before it made it, and a run over several lines stops
    there. *)
Theorem unregistered_format_index_raises
    (time : HostTime.lib) (line val : string) (pre post more : list string)
    (s s1 : SYLK.t) (n : Z) :
  SYLK.split_fields line = "F" :: pre ++ String "P" val :: post →
  SYLK._f_field ("F" :: pre) s = (Ok tt, s1) →
  Py.int val = Some n →
  Z.of_nat (length (SYLK.printformats s1)) <= n
    ∨ n < - Z.of_nat (length (SYLK.printformats s1)) →
  SYLK.parseline time line s = (Raise IndexError, s1) ∧
  SYLK.parselines time (line :: more) s = (Raise IndexError, s1).
Proof.
  intros Hsplit Hpre Hint Hrange.
  assert (Hline : SYLK.parseline time line s = (Raise IndexError, s1)).
  { rewrite (parseline_F time line _ s Hsplit), for_each_app.
    unfold SYLK._f_field in Hpre. simpl tail in Hpre.
    unfold SYLK.bind. rewrite Hpre. simpl. unfold SYLK.bind.
    rewrite (f_subfield_P val n) by done. by rewrite getitem_out_of_range. }
  split; [done|]. unfold SYLK.parselines. simpl. unfold SYLK.bind. by rewrite Hline.
Qed.

Lemma unregistered_format_index_raises_witness :
  SYLK.parseline (FixedZone.lib 0) "F;X3;P0;Y2" SYLK.init
    = (Raise IndexError, SYLK.set_curx 3 SYLK.init) ∧
  SYLK.parselines (FixedZone.lib 0) ["F;X3;P0;Y2"; "C;K1"] SYLK.init
    = (Raise IndexError, SYLK.set_curx 3 SYLK.init).
Proof.
  apply (unregistered_format_index_raises (FixedZone.lib 0) "F;X3;P0;Y2" "0"
           ["X3"] ["Y2"] ["C;K1"] SYLK.init (SYLK.set_curx 3 SYLK.init) 0);
    [reflexivity|reflexivity|reflexivity|left; simpl; lia].
Defined.

(** C9.  In a document with at least one registered format, a sub-field
    [P] with a negative index whose absolute value does not exceed the
    number of registered formats raises nothing: it selects the entry
    counted from the end, and the current format and kind read afterwards
    are those of that entry, nothing else being changed; [P-1] selects the
    entry registered last. *)
Theorem negative_format_index_counts_from_end :
  (∀ (time : HostTime.lib) line val n s,
     SYLK.split_fields line = ["F"; String "P" val] →
     Py.int val = Some n →
     - Z.of_nat (length (SYLK.printformats s)) <= n < 0 →
     ∃ entry s',
       SYLK.printformats s !! Z.to_nat (Z.of_nat (length (SYLK.printformats s)) + n)
         = Some entry ∧
       SYLK.parseline time line s = (Ok tt, s') ∧
       SYLK.currentformat s' = entry.1 ∧ SYLK.currenttype s' = entry.2 ∧
       s' = SYLK.set_current (SYLK.currentformat s') (SYLK.currenttype s') s) ∧
  (∀ (time : HostTime.lib) s,
     SYLK.printformats s ≠ [] →
     ∃ entry s',
       last (SYLK.printformats s) = Some entry ∧
       SYLK.parseline time "F;P-1" s = (Ok tt, s') ∧
       SYLK.currentformat s' = entry.1 ∧ SYLK.currenttype s' = entry.2).
Proof.
  assert (Hgen : ∀ (time : HostTime.lib) line val n s,
     SYLK.split_fields line = ["F"; String "P" val] →
     Py.int val = Some n →
     - Z.of_nat (length (SYLK.printformats s)) <= n < 0 →
     ∃ entry s',
       SYLK.printformats s !! Z.to_nat (Z.of_nat (length (SYLK.printformats s)) + n)
         = Some entry ∧
       SYLK.parseline time line s = (Ok tt, s') ∧
       SYLK.currentformat s' = entry.1 ∧ SYLK.currenttype s' = entry.2 ∧
       s' = SYLK.set_current (SYLK.currentformat s') (SYLK.currenttype s') s).
  { intros time line val n s Hsplit Hint Hrange.
    destruct (getitem_negative (SYLK.printformats s) n Hrange) as (entry & Hentry & Hget).
    exists entry, (SYLK.set_current entry.1 entry.2 s). split; [done|].
    rewrite (parseline_F time line _ s Hsplit), for_each_one.
    rewrite (f_subfield_P val n) by done. by rewrite Hget. }
  split; [exact Hgen|]. intros time s Hne.
  destruct (Hgen time "F;P-1" "-1" (-1) s) as (entry & s' & Hentry & Hrun & Hfmt & Hty & _);
    [done|done| |].
  - destruct (SYLK.printformats s); [done|]. simpl length. lia.
  - exists entry, s'. split; [|done]. rewrite last_lookup. rewrite <- Hentry. f_equal. lia.
Qed.

Lemma negative_format_index_counts_from_end_witness :
  ∃ entry s',
    [("0.00", "float"); ("m/d/yy", "date")] !! Z.to_nat (Z.of_nat 2 + -2) = Some entry ∧
    SYLK.parseline (FixedZone.lib 0) "F;P-2"
      (SYLK.set_printformats [("0.00", "float"); ("m/d/yy", "date")] SYLK.init)
    = (Ok tt, s') ∧
    SYLK.currentformat s' = entry.1 ∧ SYLK.currenttype s' = entry.2 ∧
    s' = SYLK.set_current (SYLK.currentformat s') (SYLK.currenttype s')
           (SYLK.set_printformats [("0.00", "float"); ("m/d/yy", "date")] SYLK.init).
Proof.
  apply (proj1 negative_format_index_counts_from_end (FixedZone.lib 0) "F;P-2" "-2" (-2)
           (SYLK.set_printformats [("0.00", "float"); ("m/d/yy", "date")] SYLK.init));
    [reflexivity|reflexivity|simpl; lia].
Defined.



(** C6, as the code has it.  A record whose tag is none of [ID], [F], [C]
    and [P] is parsed without error and records, under that tag, the whole
    text of each of its sub-fields in the unknown-field report, changing
    nothing else: the entries of the other tags are the same, the keys
    under the tag are those there were and the sub-fields, and the rest of
    the document is untouched.  The record [Q;Zfoo] on a fresh document
    yields the report entry [Q] with the key [Zfoo]. *)
Theorem unknown_record_subfields_recorded :
  (∀ (time : HostTime.lib) line tag subs s,
     SYLK.split_fields line = tag :: subs →
     tag ≠ "ID" → tag ≠ "F" → tag ≠ "C" → tag ≠ "P" →
     ∃ s', SYLK.parseline time line s = (Ok tt, s') ∧
           (∀ f, In f subs → recorded tag f s') ∧
           report_adds tag subs s s' ∧
           s' = SYLK.set_unknown (SYLK.unknown s') s) ∧
  (∀ (time : HostTime.lib),
     SYLK.parseline time "Q;Zfoo" SYLK.init
       = (Ok tt, SYLK.set_unknown [("Q", [("Zfoo", 1)])] SYLK.init) ∧
     SYLK.writeunknown (SYLK.set_unknown [("Q", [("Zfoo", 1)])] SYLK.init)
       = "Unrecognized fields (subfields):" ++ Str.chr Chr.lf ++
         "Q (['Zfoo'])" ++ Str.chr Chr.lf).
Proof.
  split.
  - intros time line tag subs s Hsplit HID HF HC HP.
    destruct (for_each_addunknown_adds tag subs s) as (s' & Hrun & Hadds & Hs').
    exists s'. rewrite (parseline_other time line tag subs s) by done.
    split; [done|]. split; [|done]. intros f Hf. apply Hadds. by right.
  - intros time. split; reflexivity.
Qed.

Lemma unknown_record_subfields_recorded_witness :
  ∃ s', SYLK.parseline (FixedZone.lib 0) "Q;Zfoo;Abar"
          (SYLK.set_unknown [("W", [("Vb", 1)])] SYLK.init) = (Ok tt, s') ∧
        (∀ f, In f ["Zfoo"; "Abar"] → recorded "Q" f s') ∧
        report_adds "Q" ["Zfoo"; "Abar"] (SYLK.set_unknown [("W", [("Vb", 1)])] SYLK.init) s' ∧
        s' = SYLK.set_unknown (SYLK.unknown s')
               (SYLK.set_unknown [("W", [("Vb", 1)])] SYLK.init).
Proof.
  apply (proj1 unknown_record_subfields_recorded (FixedZone.lib 0) "Q;Zfoo;Abar" "Q"
           ["Zfoo"; "Abar"] (SYLK.set_unknown [("W", [("Vb", 1)])] SYLK.init));
    [reflexivity|discriminate..].
Defined.

(** C6 as stated fails: after the record [Q;Zfoo] the report entry of [Q]
    holds the key [Zfoo], and no key [Z], the discriminator of that
    sub-field. *)
Lemma unknown_subfield_kept_whole :
  SYLK.split_fields "Q;Zfoo" = ["Q"; "Zfoo"] ∧
  Str.head "Zfoo" = Ok "Z"%char ∧
  ¬ recorded "Q" "Z" (SYLK.parseline (FixedZone.lib 0) "Q;Zfoo" SYLK.init).2 ∧
  SYLK.writeunknown (SYLK.parseline (FixedZone.lib 0) "Q;Zfoo" SYLK.init).2
    = "Unrecognized fields (subfields):" ++ Str.chr Chr.lf ++
      "Q (['Zfoo'])" ++ Str.chr Chr.lf.
Proof.
  split; [reflexivity|]. split; [reflexivity|]. split; [|reflexivity].
  intros (d & Hd & Hz). vm_compute in Hd. injection Hd as <-. discriminate Hz.
Qed.

(** C7, as the code has it.  For a token that starts with a double quote,
    the escaping step keeps the interior of the token (its first and last
    characters dropped) between double quotes and puts, for every double
    quote of the interior, the four characters backslash, quote, backslash,
    quote; when the interior holds no backslash, line break or null
    character, evaluating the result gives the interior with every double
    quote doubled. *)
Theorem escape_doubles_quotes (tok : string) :
  Str.take 1 tok = SYLK.q →
  SYLK.escape tok =
    SYLK.q ++ Str.sub Chr.dquote (String Chr.backslash SYLK.q ++ String Chr.backslash SYLK.q)
                      (Str.inner tok) ++ SYLK.q ∧
  (plain (Str.inner tok) = true →
   Py.eval (SYLK.escape tok)
     = Some (Py.VStr (Str.sub Chr.dquote (SYLK.q ++ SYLK.q) (Str.inner tok)))).
Proof.
  intros Hq.
  assert (Hesc : SYLK.escape tok =
    SYLK.q ++ Str.sub Chr.dquote (String Chr.backslash SYLK.q ++ String Chr.backslash SYLK.q)
                      (Str.inner tok) ++ SYLK.q).
  { unfold SYLK.escape. by rewrite Hq, String.eqb_refl. }
  split; [done|]. intros Hplain. rewrite Hesc.
  change (Py.eval (SYLK.q ++ ?t)) with (Py.VStr <$> Py.str_body t).
  by rewrite str_body_escaped.
Qed.

Lemma escape_doubles_quotes_witness :
  SYLK.escape (SYLK.q ++ "say " ++ SYLK.q ++ "hi" ++ SYLK.q ++ SYLK.q) =
    SYLK.q ++ Str.sub Chr.dquote (String Chr.backslash SYLK.q ++ String Chr.backslash SYLK.q)
                (Str.inner (SYLK.q ++ "say " ++ SYLK.q ++ "hi" ++ SYLK.q ++ SYLK.q))
           ++ SYLK.q ∧
  (plain (Str.inner (SYLK.q ++ "say " ++ SYLK.q ++ "hi" ++ SYLK.q ++ SYLK.q)) = true →
   Py.eval (SYLK.escape (SYLK.q ++ "say " ++ SYLK.q ++ "hi" ++ SYLK.q ++ SYLK.q))
     = Some (Py.VStr (Str.sub Chr.dquote (SYLK.q ++ SYLK.q)
                        (Str.inner (SYLK.q ++ "say " ++ SYLK.q ++ "hi" ++ SYLK.q ++ SYLK.q))))).
Proof.
  apply (escape_doubles_quotes (SYLK.q ++ "say " ++ SYLK.q ++ "hi" ++ SYLK.q ++ SYLK.q)).
  reflexivity.
Defined.

(** C7 as stated fails: on the token made of a quote, [a], two quotes, [b]
    and a quote, the step of the specification would leave one quote between
    [a] and [b]; the code leaves two escaped quotes for each of the two, and
    the evaluation gives four quotes between [a] and [b]. *)
Lemma escape_does_not_unescape :
  escape_as_specified (SYLK.q ++ "a" ++ SYLK.q ++ SYLK.q ++ "b" ++ SYLK.q)
    = SYLK.q ++ "a" ++ SYLK.q ++ "b" ++ SYLK.q ∧
  SYLK.escape (SYLK.q ++ "a" ++ SYLK.q ++ SYLK.q ++ "b" ++ SYLK.q)
    ≠ escape_as_specified (SYLK.q ++ "a" ++ SYLK.q ++ SYLK.q ++ "b" ++ SYLK.q) ∧
  Py.eval (SYLK.escape (SYLK.q ++ "a" ++ SYLK.q ++ SYLK.q ++ "b" ++ SYLK.q))
    = Some (Py.VStr ("a" ++ SYLK.q ++ SYLK.q ++ SYLK.q ++ SYLK.q ++ "b")) ∧
  Py.eval (SYLK.escape (SYLK.q ++ "a" ++ SYLK.q ++ SYLK.q ++ "b" ++ SYLK.q))
    ≠ Some (Py.VStr ("a" ++ SYLK.q ++ "b")).
Proof.
  split; [reflexivity|]. split; [by vm_compute|]. split; [reflexivity|]. by vm_compute.
Qed.

(** * Further properties of the code *)

(** ** Splitting a line into fields *)

Lemma split_fields_cons (line : string) :
  ∃ field fields, SYLK.split_fields line = field :: fields.
Proof.
  destruct line as [|c rest]; simpl; [by eauto|].
  destruct (_ && _); [by eauto|]. destruct (SYLK.split_fields rest); by eauto.
Qed.

(** The first field starts like the line, unless the line starts with a
    separator. *)
Lemma split_fields_head (line field : string) (fields : list string) :
  SYLK.split_fields line = field :: fields →
  starts_with_letter field = true → starts_with_letter line = true.
Proof.
  destruct line as [|c rest]; simpl; [by intros [= <- <-]|].
  destruct (_ && _); [by intros [= <- <-]|].
  destruct (SYLK.split_fields rest); by intros [= <- <-].
Qed.

Lemma semicolon_not_letter (c : ascii) :
  Ascii.eqb c ";" = true → Chr.is_letter c = false.
Proof. by intros ->%Ascii.eqb_eq. Qed.

Lemma concat_two (sep a b : string) (l : list string) :
  String.concat sep (a :: b :: l) = a ++ sep ++ String.concat sep (b :: l).
Proof. reflexivity. Qed.

Lemma concat_push (sep field : string) (fields : list string) (c : ascii) :
  String.concat sep (String c field :: fields)
  = String c (String.concat sep (field :: fields)).
Proof. by destruct fields. Qed.

(** X1.  Joining the fields [re.split] gives with semicolons restores the
    line: only separators are dropped. *)
Theorem split_fields_join (line : string) :
  String.concat ";" (SYLK.split_fields line) = line.
Proof.
  induction line as [|c rest IH]; [done|]. cbn [SYLK.split_fields].
  destruct (split_fields_cons rest) as (field & fields & Hrest).
  rewrite Hrest in *.
  destruct (Ascii.eqb c ";" && _) eqn:Hsep.
  - apply andb_true_iff in Hsep as [->%Ascii.eqb_eq _].
    rewrite concat_two, IH. reflexivity.
  - by rewrite concat_push, IH.
Qed.

(** X2.  Every field after the first is non-empty, since it begins with
    the character the split looked ahead at: the discriminator [f[0]] of a
    sub-field always exists.  And no field can be split again. *)
Theorem split_fields_subfields (line : string) :
  Forall (λ f, ∃ c, Str.head f = Ok c) (tail (SYLK.split_fields line)) ∧
  Forall (λ f, SYLK.split_fields f = [f]) (SYLK.split_fields line).
Proof.
  assert (Hletters : ∀ l, Forall (λ f, starts_with_letter f = true)
                            (tail (SYLK.split_fields l))).
  { induction l as [|c rest IH]; [by constructor|]. cbn [SYLK.split_fields].
    destruct (split_fields_cons rest) as (field & fields & Hrest).
    rewrite Hrest in *. simpl in IH.
    destruct (Ascii.eqb c ";" && _) eqn:Hsep; [|done].
    apply andb_true_iff in Hsep as [Hc Hd]. simpl. constructor; [|done].
    destruct rest as [|d rest']; [done|]. simpl in Hrest.
    destruct (Ascii.eqb d ";" && _) eqn:Hsep'.
    - apply andb_true_iff in Hsep' as [Hd' _].
      apply semicolon_not_letter in Hd'. congruence.
    - destruct (SYLK.split_fields rest'); by injection Hrest as <- <-. }
  split.
  - eapply Forall_impl; [apply Hletters|]. intros [|c f] Hf; [done|]. by exists c.
  - induction line as [|c rest IH]; [by repeat constructor|]. cbn [SYLK.split_fields].
    destruct (split_fields_cons rest) as (field & fields & Hrest).
    rewrite Hrest in *. apply Forall_cons in IH as [Hfield Hfields].
    destruct (Ascii.eqb c ";" && _) eqn:Hsep; [by repeat constructor|].
    constructor; [|done]. cbn [SYLK.split_fields]. rewrite Hfield.
    replace (Ascii.eqb c ";" && _) with false; [done|]. symmetry.
    apply andb_false_iff. apply andb_false_iff in Hsep as [Hc|Hd]; [by left|right].
    destruct field as [|d field']; [done|].
    destruct (Chr.is_letter d) eqn:Hd'; [|done].
    pose proof (split_fields_head rest (String d field') fields Hrest Hd') as Hhead.
    destruct rest; simpl in *; congruence.
Qed.

(** ** Relations every step of the parser keeps *)

Section Keeps.
Context (R : relation SYLK.t) `{!PreOrder R}.

Lemma keeps_ret {A : Type} (a : A) : keeps R (SYLK.ret a).
Proof. intros s. reflexivity. Qed.

Lemma keeps_lift {A : Type} (o : outcome A) : keeps R (SYLK.lift o).
Proof. intros s. reflexivity. Qed.

Lemma keeps_get : keeps R SYLK.get.
Proof. intros s. reflexivity. Qed.

Lemma keeps_modify (f : SYLK.t → SYLK.t) : (∀ s, R s (f s)) → keeps R (SYLK.modify f).
Proof. intros Hf s. apply Hf. Qed.

Lemma keeps_bind {A B : Type} (m : SYLK.M A) (k : A → SYLK.M B) :
  keeps R m → (∀ a, keeps R (k a)) → keeps R (SYLK.bind m k).
Proof.
  intros Hm Hk s. unfold SYLK.bind. specialize (Hm s).
  destruct (m s) as [[a| |] s1]; simpl in *; [|done..].
  by etrans; [|apply Hk].
Qed.

Lemma keeps_for_each {A : Type} (body : A → SYLK.M unit) (l : list A) :
  (∀ a, keeps R (body a)) → keeps R (SYLK.for_each body l).
Proof.
  intros Hbody. induction l as [|a l IH]; simpl; [apply keeps_ret|].
  by apply keeps_bind.
Qed.

Ltac keeps_go :=
  repeat first
    [ apply keeps_ret | apply keeps_lift | apply keeps_get
    | apply keeps_bind; [|intros ?]
    | apply keeps_for_each; intros ?
    | match goal with |- keeps _ (if ?b then _ else _) => destruct b end
    | match goal with |- keeps _ (match ?x with _ => _ end) => destruct x end ].

(** The elementary updates of the document. *)
Hypothesis keeps_datebase : ∀ v s, R s (SYLK.set_datebase v s).
Hypothesis keeps_curx : ∀ n s, R s (SYLK.set_curx n s).
Hypothesis keeps_cury : ∀ n s, R s (SYLK.set_cury n s).
Hypothesis keeps_current : ∀ fmt ty s, R s (SYLK.set_current fmt ty s).
Hypothesis keeps_append : ∀ format ty s,
  Dict.get format SYLK.knownformats = Some ty
  ∨ Dict.get format SYLK.knownformats = None ∧ ty = SYLK.guess_type format →
  R s (SYLK.set_printformats (SYLK.printformats s ++ [(format, ty)]) s).
Hypothesis keeps_addunknown : ∀ fld sub, keeps R (SYLK.addunknown fld sub).
Hypothesis keeps_write_cell : ∀ xy val, keeps R (SYLK.write_cell xy val).

Lemma id_field_keeps fields : keeps R (SYLK._id_field fields).
Proof. unfold SYLK._id_field. keeps_go; by apply keeps_modify. Qed.

Lemma f_subfield_keeps f : keeps R (SYLK.f_subfield f).
Proof.
  unfold SYLK.f_subfield, SYLK.int. keeps_go; try by apply keeps_modify.
  apply keeps_addunknown.
Qed.

Lemma c_subfield_keeps time f : keeps R (SYLK.c_subfield time f).
Proof.
  unfold SYLK.c_subfield, SYLK.int, SYLK.eval.
  keeps_go; try (by apply keeps_modify); try apply keeps_write_cell.
  apply keeps_addunknown.
Qed.

Lemma p_fields_keeps fields : keeps R (SYLK._p_fields fields).
Proof.
  unfold SYLK._p_fields.
  apply keeps_bind; [apply keeps_lift|intros f1].
  apply keeps_bind; [apply keeps_lift|intros c].
  destruct (Ascii.eqb c "P"); [|apply keeps_addunknown]. cbv zeta.
  destruct (Dict.get _ SYLK.knownformats) as [ty|] eqn:Hget;
    apply keeps_modify; intros s; apply keeps_append; eauto.
Qed.

Lemma parseline_keeps time line : keeps R (SYLK.parseline time line).
Proof.
  unfold SYLK.parseline, SYLK._f_field, SYLK._c_field. cbv zeta.
  apply keeps_bind; [apply keeps_lift|intros tag].
  apply keeps_bind; [destruct (String.eqb tag "ID"); [apply id_field_keeps|apply keeps_ret]|].
  intros _. repeat match goal with |- keeps _ (if ?b then _ else _) => destruct b end.
  - apply keeps_for_each, f_subfield_keeps.
  - apply keeps_for_each, c_subfield_keeps.
  - apply p_fields_keeps.
  - apply keeps_for_each, keeps_addunknown.
Qed.

Lemma parse_keeps time text : keeps R (SYLK.parse time text).
Proof. apply keeps_for_each. intros line. apply parseline_keeps. Qed.
End Keeps.

(** ** The registry of formats *)

Instance registry_grows_preorder : PreOrder registry_grows.
Proof.
  split.
  - intros s. exists []. by rewrite app_nil_r.
  - intros s1 s2 s3 [e1 H1] [e2 H2]. exists (e1 ++ e2)%list. by rewrite H2, H1, app_assoc.
Qed.

Lemma registry_grows_same (s s' : SYLK.t) :
  SYLK.printformats s' = SYLK.printformats s → registry_grows s s'.
Proof. intros H. exists []. by rewrite app_nil_r. Qed.

Lemma write_cell_elsewhere (xy : Z * Z) (val : string) (s : SYLK.t) :
  (SYLK.write_cell xy val s).2 = SYLK.set_data (SYLK.write_cell xy val s).2.(SYLK.data) s.
Proof. unfold SYLK.write_cell. by destruct (Table.setitem xy val (SYLK.data s)). Qed.

Lemma parseline_registry_grows (time : HostTime.lib) (line : string) :
  keeps registry_grows (SYLK.parseline time line).
Proof.
  apply parseline_keeps; try apply _;
    try (intros; by apply registry_grows_same).
  - intros format ty s _. by exists [(format, ty)].
  - intros fld sub s. by apply registry_grows_same.
  - intros xy val s. apply registry_grows_same. by rewrite write_cell_elsewhere.
Qed.

(** X3.  The registry of formats is append-only: whatever line (or whole
    text) is parsed, every value evaluated lying in the fragment that is
    modelled, and whether or not the parse raises, every registered format
    keeps its index and its entry. *)
Theorem registry_is_append_only (time : HostTime.lib) (s : SYLK.t)
    (i : nat) (entry : string * string) :
  SYLK.printformats s !! i = Some entry →
  (∀ line, modelled (SYLK.parseline time line s) →
           SYLK.printformats (SYLK.parseline time line s).2 !! i = Some entry) ∧
  (∀ text, modelled (SYLK.parse time text s) →
           SYLK.printformats (SYLK.parse time text s).2 !! i = Some entry).
Proof.
  intros Hentry. split.
  - intros line _. destruct (parseline_registry_grows time line s) as [extra ->].
    by apply lookup_app_l_Some.
  - intros text _.
    destruct (keeps_for_each registry_grows (SYLK.parseline time)
                (SYLK.split_lines (SYLK.join_breaks false text))
                (parseline_registry_grows time) s) as [extra Hextra].
    unfold SYLK.parse. rewrite Hextra. by apply lookup_app_l_Some.
Qed.

Lemma registry_is_append_only_witness :
  SYLK.printformats
    (SYLK.parseline (FixedZone.lib 0) "P;Pm/d/yy"
       (SYLK.set_printformats [("0.00", "float")] SYLK.init)).2 !! 0%nat
  = Some ("0.00", "float") ∧
  SYLK.printformats
    (SYLK.parse (FixedZone.lib 0) ("P;Pm/d/yy" ++ Str.chr Chr.lf ++ "F;P7")
       (SYLK.set_printformats [("0.00", "float")] SYLK.init)).2 !! 0%nat
  = Some ("0.00", "float").
Proof.
  split.
  - apply (proj1 (registry_is_append_only (FixedZone.lib 0)
                    (SYLK.set_printformats [("0.00", "float")] SYLK.init) 0
                    ("0.00", "float") eq_refl) "P;Pm/d/yy").
    by vm_compute.
  - apply (proj2 (registry_is_append_only (FixedZone.lib 0)
                    (SYLK.set_printformats [("0.00", "float")] SYLK.init) 0
                    ("0.00", "float") eq_refl) ("P;Pm/d/yy" ++ Str.chr Chr.lf ++ "F;P7")).
    by vm_compute.
Defined.

Instance keeps_registry_valid_preorder : PreOrder keeps_registry_valid.
Proof. split; unfold keeps_registry_valid; [by intros s|intros s1 s2 s3; tauto]. Qed.

Lemma keeps_registry_valid_same (s s' : SYLK.t) :
  SYLK.printformats s' = SYLK.printformats s → keeps_registry_valid s s'.
Proof. unfold keeps_registry_valid, registry_valid. by intros ->. Qed.

Lemma in_kinds (ty : string) : existsb (String.eqb ty) kinds = true → In ty kinds.
Proof.
  intros H. apply existsb_exists in H as (k & Hk & ->%String.eqb_eq). exact Hk.
Qed.

Lemma knownformats_kinds (format ty : string) :
  Dict.get format SYLK.knownformats = Some ty → In ty kinds.
Proof.
  intros Hget%dict_get_In.
  assert (forallb (λ kv : string * string, existsb (String.eqb kv.2) kinds)
            SYLK.knownformats = true) as Hall by (vm_compute; reflexivity).
  rewrite forallb_forall in Hall. apply in_kinds. by apply (Hall (format, ty)).
Qed.

Lemma guess_type_kinds (format : string) : In (SYLK.guess_type format) kinds.
Proof.
  apply in_kinds. unfold SYLK.guess_type.
  destruct (Str.contains "y" format), (Str.contains "d" format),
    (Str.contains "h" format), (Str.contains "0" format), (Str.contains "." format);
    reflexivity.
Qed.

Lemma parseline_registry_valid (time : HostTime.lib) (line : string) :
  keeps keeps_registry_valid (SYLK.parseline time line).
Proof.
  apply parseline_keeps; try apply _;
    try (intros; by apply keeps_registry_valid_same).
  - intros format ty s Hty Hvalid. unfold registry_valid in *. simpl.
    apply Forall_app. split; [done|]. constructor; [|done]. simpl.
    destruct Hty as [Hknown|[_ ->]]; [by eapply knownformats_kinds|apply guess_type_kinds].
  - intros fld sub s. by apply keeps_registry_valid_same.
  - intros xy val s. apply keeps_registry_valid_same. by rewrite write_cell_elsewhere.
Qed.

(** X4.  Every format the parser registers has one of the six kinds
    string, int, float, date, time and datetime: a line keeps a registry of
    such entries so, and a whole text parsed from a fresh document leaves
    only such entries, whether or not the parse raises, as long as every
    value evaluated lies in the fragment that is modelled. *)
Theorem registered_kinds_are_known (time : HostTime.lib) :
  (∀ line s, modelled (SYLK.parseline time line s) →
             registry_valid s → registry_valid (SYLK.parseline time line s).2) ∧
  (∀ text fmt ty,
     modelled (SYLK.parse time text SYLK.init) →
     In (fmt, ty) (SYLK.printformats (SYLK.parse time text SYLK.init).2) →
     ty = "string" ∨ ty = "int" ∨ ty = "float" ∨ ty = "date" ∨ ty = "time"
     ∨ ty = "datetime").
Proof.
  split; [intros line s _; apply parseline_registry_valid|].
  intros text fmt ty _ Hin.
  assert (registry_valid (SYLK.parse time text SYLK.init).2) as Hvalid.
  { apply (keeps_for_each keeps_registry_valid (SYLK.parseline time) _
             (parseline_registry_valid time) SYLK.init). constructor. }
  unfold registry_valid in Hvalid. rewrite Forall_forall in Hvalid.
  apply list_elem_of_In, Hvalid in Hin. simpl in Hin.
  destruct Hin as [<-|[<-|[<-|[<-|[<-|[<-|[]]]]]]]; auto 10.
Qed.

Lemma registered_kinds_are_known_witness :
  registry_valid
    (SYLK.parseline (FixedZone.lib 0) "P;Pyyyy-mm"
       (SYLK.set_printformats [("0.00", "float")] SYLK.init)).2 ∧
  ("date" = "string" ∨ "date" = "int" ∨ "date" = "float" ∨ "date" = "date"
   ∨ "date" = "time" ∨ "date" = "datetime").
Proof.
  split.
  - apply (proj1 (registered_kinds_are_known (FixedZone.lib 0)) "P;Pyyyy-mm"
             (SYLK.set_printformats [("0.00", "float")] SYLK.init)); [by vm_compute|].
    constructor; [|constructor]. simpl. auto 10.
  - apply (proj2 (registered_kinds_are_known (FixedZone.lib 0))
             ("P;Pyyyy-mm" ++ Str.chr Chr.lf ++ "Q;Zfoo") "yyyy-mm" "date"); [by vm_compute|].
    vm_compute. by left.
Defined.

(** ** More about the grid *)

Lemma extended_row_length (row : list string) (x : Z) :
  (length row <=
   length (if (Z.of_nat (length row) <? x)%Z
           then Table._extend_row row (x - Z.of_nat (length row))%Z else row))%nat.
Proof.
  destruct (_ <? _); [|done]. unfold Table._extend_row. rewrite length_app. lia.
Qed.

(** A write, at any coordinate and whatever its outcome, keeps every row
    and never makes one shorter. *)
Lemma setitem_widens (x y : Z) (val : string) (tb : Table.t) :
  widens tb (Table.setitem (x, y) val tb).2.
Proof.
  unfold Table.setitem. rewrite grow_enough by lia.
  set (rs := grown x y (Table.rows tb)).
  assert (Hbase : ∀ i row, Table.rows tb !! i = Some row →
                           ∃ row', rs !! i = Some row' ∧ (length row <= length row')%nat).
  { intros i row Hrow. exists row. split; [by apply grown_keeps|done]. }
  destruct (Py.index (length rs) (y - 1)) as [k|]; [|done].
  destruct (rs !! k) as [row|] eqn:Hk; [|done].
  destruct (Table.nonblank val); [|done].
  pose proof (extended_row_length row x) as Hlen.
  set (row' := if Z.of_nat (length row) <? x
               then Table._extend_row row (x - Z.of_nat (length row)) else row) in *.
  pose proof (lookup_lt_Some _ _ _ Hk) as Hklt.
  destruct (Py.index (length row') (x - 1)) as [j|]; cbn [snd Table.rows];
    intros i r0 Hr0; cbn [snd Table.rows]; destruct (Hbase i r0 Hr0) as (r1 & Hr1 & Hle);
    (destruct (decide (i = k)) as [->|Hne];
     [rewrite list_lookup_insert_eq by done; eexists; split; [done|];
      rewrite ?length_insert; assert (r1 = row) as -> by congruence; lia
     |rewrite list_lookup_insert_ne by done; eauto]).
Qed.

Lemma grown_enough_rows (x y : Z) (rs : list (list string)) :
  y <= Z.of_nat (length rs) → grown x y rs = rs.
Proof.
  intros Hy. unfold grown. replace (Z.to_nat _) with 0%nat by lia. apply app_nil_r.
Qed.

(** X5.  A blank value ([''] or [' ']) is never stored.  Written at a row
    that exists (whatever the column, even one below 1), it changes nothing
    and raises nothing; written at a row beyond the last, it still creates
    the missing rows, each of [x] blank cells. *)
Theorem blank_write (tb : Table.t) (x y : Z) (val : string) :
  val = EmptyString ∨ val = " " →
  (1 <= y <= Z.of_nat (length (Table.rows tb)) →
   Table.setitem (x, y) val tb = (Ok tt, tb)) ∧
  (Z.of_nat (length (Table.rows tb)) < y →
   Table.setitem (x, y) val tb =
     (Ok tt, {| Table.rows :=
                  Table.rows tb ++
                  replicate (Z.to_nat (y - Z.of_nat (length (Table.rows tb))))
                            (replicate (Z.to_nat x) " ") |})).
Proof.
  intros Hb%nonblank_false.
  assert (Hrun : 1 <= y → Table.setitem (x, y) val tb
                          = (Ok tt, {| Table.rows := grown x y (Table.rows tb) |})).
  { intros Hy. unfold Table.setitem. rewrite grow_enough by lia. rewrite Hb.
    set (rs := grown x y (Table.rows tb)).
    assert (y <= Z.of_nat (length rs)) by (unfold rs; rewrite grown_length; lia).
    rewrite index_in_range by lia.
    by destruct (lookup_lt_is_Some_2 rs (Z.to_nat (y - 1))) as [row ->]; [lia|]. }
  split.
  - intros [Hy Hlen]. rewrite Hrun by done. rewrite grown_enough_rows by done.
    by destruct tb.
  - intros Hlen. rewrite Hrun by lia. reflexivity.
Qed.

Lemma blank_write_witness :
  Table.setitem (-3, 1) " " {| Table.rows := [["a"]] |} = (Ok tt, {| Table.rows := [["a"]] |}) ∧
  Table.setitem (2, 3) " " {| Table.rows := [["a"]] |} =
    (Ok tt, {| Table.rows := [["a"]; [" "; " "]; [" "; " "]] |}).
Proof.
  split.
  - apply (proj1 (blank_write {| Table.rows := [["a"]] |} (-3) 1 " " (or_intror eq_refl))).
    simpl. lia.
  - apply (proj2 (blank_write {| Table.rows := [["a"]] |} 2 3 " " (or_intror eq_refl))).
    simpl. lia.
Defined.

(** X6.  A non-blank value written at column [x >= 1] of a row beyond the
    last creates the missing rows: the rows before the target are [x] blank
    cells each, and the target row is [x - 1] blank cells followed by the
    value. *)
Theorem write_creates_padded_rows (tb : Table.t) (x y : Z) (val : string) :
  1 <= x → Z.of_nat (length (Table.rows tb)) < y →
  val ≠ EmptyString → val ≠ " " →
  Table.setitem (x, y) val tb =
    (Ok tt,
     {| Table.rows :=
          Table.rows tb
          ++ replicate (Z.to_nat (y - 1 - Z.of_nat (length (Table.rows tb))))
                       (replicate (Z.to_nat x) " ")
          ++ [(replicate (Z.to_nat (x - 1)) " " ++ [val])%list] |}).
Proof.
  intros Hx Hlen Hne Hsp.
  destruct (setitem_1based x y val tb) as (row & Hrow & ->); [lia..|].
  assert (Table.nonblank val = true) as -> by (by apply nonblank_true).
  f_equal. f_equal. unfold grown in *.
  set (rs := Table.rows tb) in *.
  set (n := Z.to_nat (y - 1 - Z.of_nat (length rs))).
  replace (Z.to_nat (y - Z.of_nat (length rs))) with (S n) in * by lia.
  replace (Z.to_nat (y - 1)) with (length rs + n)%nat in * by lia.
  rewrite lookup_app_r in Hrow by lia.
  apply lookup_replicate_1 in Hrow as [-> _].
  rewrite insert_app_r_alt by lia.
  replace (length rs + n - length rs)%nat with n by lia.
  rewrite replicate_S_end, insert_app_r_alt by (rewrite length_replicate; lia).
  rewrite length_replicate, Nat.sub_diag. simpl. do 3 f_equal.
  unfold Table.blanks. rewrite length_replicate.
  replace (Z.to_nat (x - Z.of_nat (Z.to_nat x))) with 0%nat by lia.
  simpl. rewrite app_nil_r.
  replace (Z.to_nat x) with (S (Z.to_nat (x - 1))) by lia.
  rewrite replicate_S_end, insert_app_r_alt by (rewrite length_replicate; lia).
  by rewrite length_replicate, Nat.sub_diag.
Qed.

Lemma write_creates_padded_rows_witness :
  Table.setitem (3, 3) "v" {| Table.rows := [["a"]] |} =
    (Ok tt,
     {| Table.rows :=
          [["a"]] ++ replicate (Z.to_nat (3 - 1 - Z.of_nat (length [["a"]])))
                               (replicate (Z.to_nat 3) " ")
          ++ [(replicate (Z.to_nat (3 - 1)) " " ++ ["v"])%list] |}).
Proof.
  apply (write_creates_padded_rows {| Table.rows := [["a"]] |} 3 3 "v");
    [lia|simpl; lia|discriminate|discriminate].
Defined.

(** X7.  The last value written at a coordinate wins: writing a non-blank
    value over a non-blank value at the same 1-based coordinate gives the
    table the second write alone would give. *)
Theorem overwrite_keeps_last (tb : Table.t) (x y : Z) (v1 v2 : string) :
  1 <= x → 1 <= y →
  v1 ≠ EmptyString → v1 ≠ " " → v2 ≠ EmptyString → v2 ≠ " " →
  Table.setitem (x, y) v2 (Table.setitem (x, y) v1 tb).2 = Table.setitem (x, y) v2 tb.
Proof.
  intros Hx Hy Hne1 Hsp1 Hne2 Hsp2.
  assert (Table.nonblank v1 = true) as Hnb1 by (by apply nonblank_true).
  assert (Table.nonblank v2 = true) as Hnb2 by (by apply nonblank_true).
  destruct (setitem_1based x y v1 tb Hx Hy) as (row & Hrow & Hrun1).
  destruct (setitem_1based x y v2 tb Hx Hy) as (row2 & Hrow2 & Hrun2).
  assert (row2 = row) as -> by congruence.
  rewrite Hrun1, Hrun2, Hnb1, Hnb2. cbn [snd].
  set (rs := grown x y (Table.rows tb)) in *.
  set (k := Z.to_nat (y - 1)) in *. set (j := Z.to_nat (x - 1)).
  set (wide := (row ++ Table.blanks (x - Z.of_nat (length row)))%list).
  assert (Hk : (k < length rs)%nat) by (by eapply lookup_lt_Some).
  assert (Hwide : x <= Z.of_nat (length wide)).
  { unfold wide. rewrite length_app.
    pose proof (blanks_length (x - Z.of_nat (length row))). lia. }
  destruct (setitem_1based x y v2 {| Table.rows := <[k:=<[j:=v1]> wide]> rs |} Hx Hy)
    as (row3 & Hrow3 & ->).
  rewrite Hnb2. cbn [Table.rows] in *.
  assert (y <= Z.of_nat (length rs)) by (unfold rs; rewrite grown_length; lia).
  rewrite grown_enough_rows in * by (rewrite length_insert; lia).
  fold k in Hrow3. rewrite list_lookup_insert_eq in Hrow3 by done.
  injection Hrow3 as <-. rewrite length_insert.
  replace (Table.blanks (x - Z.of_nat (length wide))) with (@nil string)
    by (unfold Table.blanks; by replace (Z.to_nat _) with 0%nat by lia).
  by rewrite app_nil_r, !list_insert_insert_eq.
Qed.

Lemma overwrite_keeps_last_witness :
  Table.setitem (2, 1) "new" (Table.setitem (2, 1) "old" {| Table.rows := [["a"]] |}).2
  = Table.setitem (2, 1) "new" {| Table.rows := [["a"]] |}.
Proof.
  apply (overwrite_keeps_last {| Table.rows := [["a"]] |} 2 1 "old" "new");
    [lia|lia|discriminate..].
Defined.

(** X8.  A write at a 1-based coordinate touches no other cell: every cell
    stored at another coordinate reads the same afterwards. *)
Theorem write_leaves_other_cells (tb : Table.t) (x y x' y' : Z) (val c : string) :
  1 <= x → 1 <= y → (x', y') ≠ (x, y) →
  Table.cell tb x' y' = Some c →
  Table.cell (Table.setitem (x, y) val tb).2 x' y' = Some c.
Proof.
  intros Hx Hy Hne (Hx' & Hy' & row0 & Hrow0 & Hc)%cell_lookup.
  destruct (setitem_1based x y val tb Hx Hy) as (row & Hrow & ->). cbn [snd].
  apply cell_lookup. split; [done|]. split; [done|]. cbn [Table.rows].
  pose proof (grown_keeps x y _ _ _ Hrow0) as Hkept.
  destruct (Table.nonblank val); [|eauto].
  destruct (decide (Z.to_nat (y' - 1) = Z.to_nat (y - 1))) as [Heq|Hrows].
  - rewrite Heq in *. assert (row = row0) as -> by congruence.
    rewrite list_lookup_insert_eq by (by eapply lookup_lt_Some).
    eexists. split; [done|].
    rewrite list_lookup_insert_ne.
    + by apply lookup_app_l_Some.
    + intros Hcols. apply Hne. f_equal; lia.
  - rewrite list_lookup_insert_ne by done. eauto.
Qed.

Lemma write_leaves_other_cells_witness :
  Table.cell (Table.setitem (2, 1) "v" {| Table.rows := [["a"; "b"]; ["c"]] |}).2 1 1
  = Some "a".
Proof.
  apply (write_leaves_other_cells {| Table.rows := [["a"; "b"]; ["c"]] |} 2 1 1 1 "v" "a");
    [lia|lia|discriminate|reflexivity].
Defined.

(** ** What each record changes *)

Instance table_widens_preorder : PreOrder table_widens.
Proof.
  split.
  - intros s i row Hrow. eauto.
  - intros s1 s2 s3 H12 H23 i row Hrow.
    destruct (H12 i row Hrow) as (row2 & Hrow2 & ?).
    destruct (H23 i row2 Hrow2) as (row3 & Hrow3 & ?).
    exists row3. split; [done|lia].
Qed.

Lemma table_widens_same (s s' : SYLK.t) :
  SYLK.data s' = SYLK.data s → table_widens s s'.
Proof. unfold table_widens. intros ->. intros i row Hrow. eauto. Qed.

Lemma parseline_table_widens (time : HostTime.lib) (line : string) :
  keeps table_widens (SYLK.parseline time line).
Proof.
  apply parseline_keeps; try apply _;
    try (intros; by apply table_widens_same).
  - intros fld sub s. by apply table_widens_same.
  - intros [x y] val s. unfold table_widens, SYLK.write_cell.
    pose proof (setitem_widens x y val (SYLK.data s)) as Hw.
    by destruct (Table.setitem (x, y) val (SYLK.data s)).
Qed.

(** X9.  The table never loses a row and no row ever gets shorter: after
    parseline on any line, or parse on any text, every value evaluated
    lying in the fragment that is modelled, and whether or not it raises,
    every row that existed is still at its place and at least as wide. *)
Theorem table_never_shrinks (time : HostTime.lib) (s : SYLK.t)
    (i : nat) (row : list string) :
  Table.rows (SYLK.data s) !! i = Some row →
  (∀ line, modelled (SYLK.parseline time line s) →
     ∃ row',
       Table.rows (SYLK.data (SYLK.parseline time line s).2) !! i = Some row' ∧
       (length row <= length row')%nat) ∧
  (∀ text, modelled (SYLK.parse time text s) →
     ∃ row',
       Table.rows (SYLK.data (SYLK.parse time text s).2) !! i = Some row' ∧
       (length row <= length row')%nat).
Proof.
  intros Hrow. split.
  - intros line _. by apply (parseline_table_widens time line s).
  - intros text _.
    by apply (keeps_for_each table_widens (SYLK.parseline time) _
                (parseline_table_widens time) s).
Qed.

Lemma table_never_shrinks_witness :
  (∃ row',
     Table.rows (SYLK.data (SYLK.parseline (FixedZone.lib 0) "C;X3;Y1;K7"
        (SYLK.set_data {| Table.rows := [["a"; "b"]] |} SYLK.init)).2) !! 0%nat = Some row' ∧
     (length ["a"; "b"] <= length row')%nat) ∧
  (∃ row',
     Table.rows (SYLK.data (SYLK.parse (FixedZone.lib 0)
        ("C;X1;Y2;K7" ++ Str.chr Chr.lf ++ "C;X0;Y0;K8")
        (SYLK.set_data {| Table.rows := [["a"; "b"]] |} SYLK.init)).2) !! 0%nat = Some row' ∧
     (length ["a"; "b"] <= length row')%nat).
Proof.
  split.
  - apply (proj1 (table_never_shrinks (FixedZone.lib 0)
                    (SYLK.set_data {| Table.rows := [["a"; "b"]] |} SYLK.init) 0 ["a"; "b"]
                    eq_refl) "C;X3;Y1;K7").
    by vm_compute.
  - apply (proj2 (table_never_shrinks (FixedZone.lib 0)
                    (SYLK.set_data {| Table.rows := [["a"; "b"]] |} SYLK.init) 0 ["a"; "b"]
                    eq_refl) ("C;X1;Y2;K7" ++ Str.chr Chr.lf ++ "C;X0;Y0;K8")).
    by vm_compute.
Defined.

Instance f_frame_preorder : PreOrder f_frame.
Proof.
  split; [by intros s|]. intros s1 s2 s3 (? & ? & ?) (? & ? & ?).
  repeat split; congruence.
Qed.

Instance p_frame_preorder : PreOrder p_frame.
Proof.
  split; [by intros s|]. intros s1 s2 s3 (? & ? & ? & ? & ? & ?) (? & ? & ? & ? & ? & ?).
  repeat split; congruence.
Qed.

Instance c_frame_preorder : PreOrder c_frame.
Proof.
  split; [by intros s|]. intros s1 s2 s3 (? & ? & ? & ?) (? & ? & ? & ?).
  repeat split; congruence.
Qed.

Lemma parseline_P (time : HostTime.lib) (line : string) (subs : list string) (s : SYLK.t) :
  SYLK.split_fields line = "P" :: subs →
  SYLK.parseline time line s = SYLK._p_fields ("P" :: subs) s.
Proof.
  intros Hsplit. unfold SYLK.parseline. rewrite Hsplit.
  unfold SYLK.bind, SYLK.lift. by rewrite getitem_first.
Qed.

(** X10.  Each record kind touches only its own part of the document,
    whatever its sub-fields and whether or not it raises: an [F] record
    leaves the table, the registry and the epoch alone; a [P] record leaves
    the table, the epoch, the cursor and the current format and kind alone;
    a [C] record whose values lie in the fragment that is modelled leaves
    the registry, the epoch and the current format and kind alone. *)
Theorem records_touch_their_own_state (time : HostTime.lib) (line : string)
    (subs : list string) (s : SYLK.t) :
  (SYLK.split_fields line = "F" :: subs → f_frame s (SYLK.parseline time line s).2) ∧
  (SYLK.split_fields line = "P" :: subs → p_frame s (SYLK.parseline time line s).2) ∧
  (SYLK.split_fields line = "C" :: subs → modelled (SYLK.parseline time line s) →
   c_frame s (SYLK.parseline time line s).2).
Proof.
  split; [|split]; intros Hsplit.
  - rewrite (parseline_F time line subs s Hsplit).
    apply (keeps_for_each f_frame); intros f.
    apply f_subfield_keeps; try apply _; done.
  - rewrite (parseline_P time line subs s Hsplit).
    apply p_fields_keeps; try apply _; done.
  - intros _. rewrite (parseline_C time line subs s Hsplit).
    apply (keeps_for_each c_frame); intros f.
    apply c_subfield_keeps; try apply _; try done.
    intros xy val s0. by rewrite write_cell_elsewhere.
Qed.

Lemma records_touch_their_own_state_witness :
  f_frame SYLK.init (SYLK.parseline (FixedZone.lib 0) "F;X3;P7" SYLK.init).2 ∧
  p_frame SYLK.init (SYLK.parseline (FixedZone.lib 0) "P;Pm/d/yy" SYLK.init).2 ∧
  c_frame SYLK.init (SYLK.parseline (FixedZone.lib 0) "C;X1;Y1;K5" SYLK.init).2.
Proof.
  split; [|split].
  - apply (proj1 (records_touch_their_own_state (FixedZone.lib 0) "F;X3;P7"
                    ["X3"; "P7"] SYLK.init)). reflexivity.
  - apply (proj1 (proj2 (records_touch_their_own_state (FixedZone.lib 0) "P;Pm/d/yy"
                           ["Pm/d/yy"] SYLK.init))). reflexivity.
  - apply (proj2 (proj2 (records_touch_their_own_state (FixedZone.lib 0) "C;X1;Y1;K5"
                           ["X1"; "Y1"; "K5"] SYLK.init))); [reflexivity|by vm_compute].
Defined.

(** ** Records with special cases *)

(** X11.  An [ID] record with at least one sub-field never raises.  It
    selects the Mac epoch when the first sub-field starts with [PClari] or
    [PApple], the PC epoch when it starts with [P Sage], and keeps the
    epoch otherwise; and, the tag switch not being exclusive, it also
    records every one of its sub-fields in the unknown-field report under
    [ID].  Nothing else changes, in the report (the other tags keep their
    entries, the keys under [ID] are those there were and the sub-fields)
    or elsewhere. *)
Theorem id_record (time : HostTime.lib) (line f1 : string) (rest : list string)
    (s : SYLK.t) :
  SYLK.split_fields line = "ID" :: f1 :: rest →
  ∃ s',
    SYLK.parseline time line s = (Ok tt, s') ∧
    (Str.take 6 f1 = "PClari" ∨ Str.take 6 f1 = "PApple" →
     SYLK.datebase s' = SYLK.macepoch) ∧
    (Str.take 6 f1 = "P Sage" → SYLK.datebase s' = SYLK.pcepoch) ∧
    (Str.take 6 f1 ≠ "PClari" → Str.take 6 f1 ≠ "PApple" → Str.take 6 f1 ≠ "P Sage" →
     SYLK.datebase s' = SYLK.datebase s) ∧
    (∀ f, In f (f1 :: rest) → recorded "ID" f s') ∧
    report_adds "ID" (f1 :: rest) s s' ∧
    s' = SYLK.set_unknown (SYLK.unknown s') (SYLK.set_datebase (SYLK.datebase s') s).
Proof.
  intros Hsplit. unfold SYLK.parseline. rewrite Hsplit.
  unfold SYLK.bind at 1. unfold SYLK.lift at 1. rewrite getitem_first.
  change (String.eqb "ID" "ID") with true. change (String.eqb "ID" "F") with false.
  change (String.eqb "ID" "C") with false. change (String.eqb "ID" "P") with false.
  cbv iota. unfold SYLK.bind at 1. unfold SYLK._id_field, SYLK.bind at 1.
  unfold SYLK.lift at 1. rewrite getitem_second. cbn [tail].
  set (s1 := (if SYLK.among (Str.take 6 f1) ["PClari"; "PApple"]
              then SYLK.set_datebase SYLK.macepoch s
              else if SYLK.among (Str.take 6 f1) ["P Sage"]
                   then SYLK.set_datebase SYLK.pcepoch s else s)).
  assert (Hid : (if SYLK.among (Str.take 6 f1) ["PClari"; "PApple"]
                 then SYLK.modify (SYLK.set_datebase SYLK.macepoch)
                 else if SYLK.among (Str.take 6 f1) ["P Sage"]
                      then SYLK.modify (SYLK.set_datebase SYLK.pcepoch)
                      else SYLK.ret tt) s = (Ok tt, s1)).
  { unfold s1. destruct (SYLK.among (Str.take 6 f1) ["PClari"; "PApple"]); [done|].
    by destruct (SYLK.among (Str.take 6 f1) ["P Sage"]). }
  rewrite Hid.
  destruct (for_each_addunknown_adds "ID" (f1 :: rest) s1) as (s' & Hrun & Hadds & Hs').
  assert (Hrec : ∀ f, In f (f1 :: rest) → recorded "ID" f s')
    by (intros f Hf; apply Hadds; by right).
  assert (Hadds' : report_adds "ID" (f1 :: rest) s s').
  { apply (report_adds_same "ID" (f1 :: rest) s1); [|done]. unfold s1.
    destruct (SYLK.among (Str.take 6 f1) ["PClari"; "PApple"]); [done|].
    by destruct (SYLK.among (Str.take 6 f1) ["P Sage"]). }
  exists s'. split; [done|].
  assert (Hbase : SYLK.datebase s' = SYLK.datebase s1) by (by rewrite Hs').
  assert (Hmac : SYLK.among (Str.take 6 f1) ["PClari"; "PApple"]
                 = String.eqb (Str.take 6 f1) "PClari" || String.eqb (Str.take 6 f1) "PApple")
    by (unfold SYLK.among; simpl; by rewrite orb_false_r).
  assert (Hpc : SYLK.among (Str.take 6 f1) ["P Sage"] = String.eqb (Str.take 6 f1) "P Sage")
    by (unfold SYLK.among; simpl; by rewrite orb_false_r).
  unfold s1 in Hbase. rewrite Hmac, Hpc in Hbase.
  split; [|split; [|split; [|split; [done|split; [done|]]]]].
  - intros [H|H]; rewrite H in Hbase; by rewrite Hbase.
  - intros H. rewrite H in Hbase. by rewrite Hbase.
  - intros H1%String.eqb_neq H2%String.eqb_neq H3%String.eqb_neq.
    by rewrite H1, H2, H3 in Hbase.
  - rewrite Hs' at 1. rewrite Hbase. unfold s1. rewrite Hmac, Hpc.
    destruct (_ || _); [by destruct s|]. destruct (String.eqb _ _); by destruct s.
Qed.

Lemma id_record_witness :
  ∃ s',
    SYLK.parseline (FixedZone.lib 0) "ID;PAppleWorks;N;E" SYLK.init = (Ok tt, s') ∧
    (Str.take 6 "PAppleWorks" = "PClari" ∨ Str.take 6 "PAppleWorks" = "PApple" →
     SYLK.datebase s' = SYLK.macepoch) ∧
    (Str.take 6 "PAppleWorks" = "P Sage" → SYLK.datebase s' = SYLK.pcepoch) ∧
    (Str.take 6 "PAppleWorks" ≠ "PClari" → Str.take 6 "PAppleWorks" ≠ "PApple" →
     Str.take 6 "PAppleWorks" ≠ "P Sage" →
     SYLK.datebase s' = SYLK.datebase SYLK.init) ∧
    (∀ f, In f ["PAppleWorks"; "N"; "E"] → recorded "ID" f s') ∧
    report_adds "ID" ["PAppleWorks"; "N"; "E"] SYLK.init s' ∧
    s' = SYLK.set_unknown (SYLK.unknown s') (SYLK.set_datebase (SYLK.datebase s') SYLK.init).
Proof.
  apply (id_record (FixedZone.lib 0) "ID;PAppleWorks;N;E" "PAppleWorks" ["N"; "E"] SYLK.init).
  reflexivity.
Defined.

(** X12.  A line without a separator is a record without sub-fields: the
    tags [ID] and [P], which read their first sub-field, raise [IndexError];
    every other line, the empty one included, is skipped.  The document is
    unchanged in both cases. *)
Theorem record_without_subfields (time : HostTime.lib) (line : string) (s : SYLK.t) :
  SYLK.split_fields line = [line] →
  (line = "ID" ∨ line = "P" → SYLK.parseline time line s = (Raise IndexError, s)) ∧
  (line ≠ "ID" → line ≠ "P" → SYLK.parseline time line s = (Ok tt, s)).
Proof.
  intros Hsplit. unfold SYLK.parseline. rewrite Hsplit.
  unfold SYLK.bind, SYLK.lift. rewrite getitem_first. cbv beta iota. split.
  - by intros [->| ->].
  - intros HID%String.eqb_neq HP%String.eqb_neq. rewrite HID, HP.
    simpl. destruct (String.eqb line "F"); [done|]. by destruct (String.eqb line "C").
Qed.

Lemma record_without_subfields_witness :
  SYLK.parseline (FixedZone.lib 0) "P" SYLK.init = (Raise IndexError, SYLK.init) ∧
  SYLK.parseline (FixedZone.lib 0) "E" SYLK.init = (Ok tt, SYLK.init).
Proof.
  split.
  - apply (proj1 (record_without_subfields (FixedZone.lib 0) "P" SYLK.init eq_refl)).
    right. reflexivity.
  - apply (proj2 (record_without_subfields (FixedZone.lib 0) "E" SYLK.init eq_refl));
      discriminate.
Defined.

(** X13.  A [P] record whose first sub-field does not begin with [P] (a
    font definition, say) registers no format: the registry, and so the
    index of the next format, is unchanged, and the discriminator of that
    sub-field is added to the unknown-field report under [P].  The
    sub-fields after the first are not looked at: nothing else is added to
    the report, and nothing else changes. *)
Theorem p_record_without_pattern (time : HostTime.lib) (line body : string) (c : ascii)
    (rest : list string) (s : SYLK.t) :
  SYLK.split_fields line = "P" :: String c body :: rest →
  c ≠ "P"%char →
  ∃ s',
    SYLK.parseline time line s = (Ok tt, s') ∧
    SYLK.printformats s' = SYLK.printformats s ∧
    recorded "P" (Str.chr c) s' ∧
    report_adds "P" [Str.chr c] s s' ∧
    s' = SYLK.set_unknown (SYLK.unknown s') s.
Proof.
  intros Hsplit Hc%Ascii.eqb_neq. rewrite (parseline_P time line _ s Hsplit).
  unfold SYLK._p_fields, SYLK.bind, SYLK.lift. rewrite getitem_second.
  cbn [Str.head]. rewrite Hc.
  destruct (addunknown_adds "P" (Str.chr c) s) as (s' & Hrun & Hadds & Hs').
  exists s'. split; [done|]. split; [by rewrite Hs'|].
  split; [|done]. apply Hadds. right. by left.
Qed.

Lemma p_record_without_pattern_witness :
  ∃ s',
    SYLK.parseline (FixedZone.lib 0) "P;FArial;M200" SYLK.init = (Ok tt, s') ∧
    SYLK.printformats s' = SYLK.printformats SYLK.init ∧
    recorded "P" (Str.chr "F") s' ∧
    report_adds "P" [Str.chr "F"] SYLK.init s' ∧
    s' = SYLK.set_unknown (SYLK.unknown s') SYLK.init.
Proof.
  apply (p_record_without_pattern (FixedZone.lib 0) "P;FArial;M200" "Arial" "F" ["M200"]
           SYLK.init); [reflexivity|discriminate].
Defined.

(** ** The unknown-field report *)

Section ReportFacts.
Context {V : Type}.
Implicit Types (d : Dict.t V) (k : string) (v : V).

Lemma dict_set_id k v d : Dict.get k d = Some v → Dict.set k v d = d.
Proof.
  induction d as [|[k' v'] d IH]; simpl; [done|].
  destruct (String.eqb_spec k k') as [->|_]; [by intros [= ->]|].
  intros H. by rewrite IH.
Qed.

End ReportFacts.

(** Recording what is recorded already changes nothing. *)
Lemma addunknown_recorded (tag sub : string) (s : SYLK.t) :
  recorded tag sub s → SYLK.addunknown tag sub s = (Ok tt, s).
Proof.
  intros (d & Hd & Hsub). unfold SYLK.addunknown, SYLK.modify. rewrite Hd. simpl.
  rewrite (dict_set_id sub 1 d Hsub).
  assert (Hsame : ∀ u : Dict.t (Dict.t Z),
            Dict.get tag u = Some d → Dict.set tag d (Dict.set tag d u) = u)
    by (intros u Hu; by rewrite !(dict_set_id tag d u Hu)).
  f_equal. destruct s; unfold SYLK.set_unknown; simpl in *. f_equal. by apply Hsame.
Qed.

Lemma for_each_addunknown_recorded (tag : string) (subs : list string) (s : SYLK.t) :
  (∀ f, In f subs → recorded tag f s) →
  SYLK.for_each (SYLK.addunknown tag) subs s = (Ok tt, s).
Proof.
  induction subs as [|f subs IH]; intros Hrec; simpl; [done|].
  unfold SYLK.bind. rewrite addunknown_recorded by (apply Hrec; by left).
  apply IH. intros g Hg. apply Hrec. by right.
Qed.

(** X15.  The report is a set: a record with a tag other than [ID], [F],
    [C] and [P] that is parsed a second time leaves the document exactly
    as the first time did. *)
Theorem unknown_record_twice (time : HostTime.lib) (line tag : string)
    (subs : list string) (s : SYLK.t) :
  SYLK.split_fields line = tag :: subs →
  tag ≠ "ID" → tag ≠ "F" → tag ≠ "C" → tag ≠ "P" →
  SYLK.parselines time [line; line] s = SYLK.parseline time line s.
Proof.
  intros Hsplit HID HF HC HP. unfold SYLK.parselines. simpl. unfold SYLK.bind.
  rewrite (parseline_other time line tag subs s) by done.
  destruct (for_each_addunknown tag subs s) as (s' & -> & Hrec & _).
  rewrite (parseline_other time line tag subs s') by done.
  by rewrite for_each_addunknown_recorded.
Qed.

Lemma unknown_record_twice_witness :
  SYLK.parselines (FixedZone.lib 0) ["B;Y10;X5"; "B;Y10;X5"] SYLK.init
  = SYLK.parseline (FixedZone.lib 0) "B;Y10;X5" SYLK.init.
Proof.
  apply (unknown_record_twice (FixedZone.lib 0) "B;Y10;X5" "B" ["Y10"; "X5"] SYLK.init);
    [reflexivity|discriminate..].
Defined.

(** ** Cell values and formats *)

Lemma write_cell_format (time : HostTime.lib) (s : SYLK.t) (tok : string) (v : Py.value) :
  Py.eval (SYLK.escape tok) = Some v →
  SYLK.currenttype s ≠ "date" ∨ (∃ str, v = Py.VStr str) →
  SYLK.c_subfield time (String "K" tok) s
  = SYLK.write_cell (SYLK.curx s, SYLK.cury s) (Py.format_s v) s.
Proof.
  intros Heval Hplain.
  unfold SYLK.c_subfield, SYLK.bind, SYLK.lift, SYLK.eval, SYLK.get, SYLK.ret.
  cbn -[SYLK.escape Py.eval String.eqb SYLK.write_cell]. rewrite Heval.
  destruct Hplain as [Hty%String.eqb_neq|[str ->]]; [|done].
  destruct v; by rewrite ?Hty.
Qed.

Lemma drop_last_snoc (body : string) (c : ascii) :
  Str.drop_last (body ++ Str.chr c) = body.
Proof.
  induction body as [|d body IH]; [done|]. simpl.
  destruct (body ++ Str.chr c) eqn:Happ; [by destruct body|]. by rewrite <- IH.
Qed.

(** X17.  [escape] drops the last character of a quoted token without
    looking at it: a token made of a quote, a body (without backslash, line
    break or null character) and any one character evaluates to the body
    with its quotes doubled, whether or not that character is a closing
    quote. *)
Theorem escape_ignores_last_character (body : string) (c : ascii) :
  plain body = true →
  Py.eval (SYLK.escape (String Chr.dquote (body ++ Str.chr c)))
  = Some (Py.VStr (Str.sub Chr.dquote (SYLK.q ++ SYLK.q) body)).
Proof.
  intros Hplain. unfold SYLK.escape.
  change (Str.take 1 (String Chr.dquote ?t)) with SYLK.q. rewrite String.eqb_refl.
  unfold Str.inner. cbn [Str.tail]. rewrite drop_last_snoc.
  change (Py.eval (SYLK.q ++ ?t)) with (Py.VStr <$> Py.str_body t).
  by rewrite str_body_escaped.
Qed.

Lemma escape_ignores_last_character_witness :
  Py.eval (SYLK.escape (String Chr.dquote ("abc" ++ Str.chr "z")))
  = Some (Py.VStr (Str.sub Chr.dquote (SYLK.q ++ SYLK.q) "abc")).
Proof. apply (escape_ignores_last_character "abc" "z"). reflexivity. Defined.

Lemma remove_contains (c : ascii) (raw : string) :
  Str.contains c (Str.remove c raw) = false.
Proof.
  induction raw as [|d raw IH]; [done|]. simpl.
  destruct (Ascii.eqb c d) eqn:Hcd; [done|]. simpl. by rewrite Hcd.
Qed.

(** X18.  A format record whose pattern, backslashes removed, is a
    built-in format adds it at the end of the registry with the kind of the
    table, whatever the character rules would give ([0%] is float by the
    table, int by the rules), and changes nothing else.  A registered
    pattern never holds a backslash, so the two built-in formats spelled
    with backslashes can never be matched. *)
Theorem builtin_format_wins (tag raw : string) (rest : list string) (s : SYLK.t)
    (ty : string) :
  Dict.get (Str.remove Chr.backslash raw) SYLK.knownformats = Some ty →
  (∃ s',
     SYLK._p_fields (tag :: String "P" raw :: rest) s = (Ok tt, s') ∧
     SYLK.printformats s'
       = (SYLK.printformats s ++ [(Str.remove Chr.backslash raw, ty)])%list ∧
     Py.getitem (SYLK.printformats s') (Z.of_nat (length (SYLK.printformats s)))
       = Ok (Str.remove Chr.backslash raw, ty) ∧
     s' = SYLK.set_printformats (SYLK.printformats s') s) ∧
  Str.contains Chr.backslash (Str.remove Chr.backslash raw) = false ∧
  (Dict.get "0%" SYLK.knownformats = Some "float" ∧ SYLK.guess_type "0%" = "int") ∧
  length (filter (λ kv : string * string, Str.contains Chr.backslash kv.1 = true)
                 SYLK.knownformats) = 2%nat.
Proof.
  intros Hknown. split; [|split; [apply remove_contains|split; [done|reflexivity]]].
  exists (SYLK.set_printformats
            (SYLK.printformats s ++ [(Str.remove Chr.backslash raw, ty)]) s).
  split; [|split; [done|split; [|done]]].
  - unfold SYLK._p_fields, SYLK.bind, SYLK.lift. rewrite getitem_second.
    remember SYLK.knownformats as known eqn:Hk. simpl. by rewrite Hknown.
  - cbn [SYLK.printformats SYLK.set_printformats]. apply getitem_lookup.
    rewrite lookup_app_r by done. by rewrite Nat.sub_diag.
Qed.

Lemma builtin_format_wins_witness :
  (∃ s',
     SYLK._p_fields ["P"; "P0\.00%"] SYLK.init = (Ok tt, s') ∧
     SYLK.printformats s'
       = (SYLK.printformats SYLK.init ++ [(Str.remove Chr.backslash "0\.00%", "float")])%list ∧
     Py.getitem (SYLK.printformats s') (Z.of_nat (length (SYLK.printformats SYLK.init)))
       = Ok (Str.remove Chr.backslash "0\.00%", "float") ∧
     s' = SYLK.set_printformats (SYLK.printformats s') SYLK.init) ∧
  Str.contains Chr.backslash (Str.remove Chr.backslash "0\.00%") = false ∧
  (Dict.get "0%" SYLK.knownformats = Some "float" ∧ SYLK.guess_type "0%" = "int") ∧
  length (filter (λ kv : string * string, Str.contains Chr.backslash kv.1 = true)
                 SYLK.knownformats) = 2%nat.
Proof. apply (builtin_format_wins "P" "0\.00%" [] SYLK.init "float"). reflexivity. Defined.

(** ** Cutting a text into lines *)

Lemma join_breaks_single (b : bool) (text : string) :
  single_breaks b (SYLK.join_breaks b text) = true.
Proof.
  revert b. induction text as [|c text IH]; intros b; [done|]. cbn [SYLK.join_breaks].
  destruct (Ascii.eqb c Chr.cr) eqn:Hcr; simpl.
  - destruct b; [apply IH|]. cbn [single_breaks]. simpl. apply IH.
  - destruct (Ascii.eqb c Chr.lf) eqn:Hlf.
    + destruct b; [apply IH|]. cbn [single_breaks]. simpl. apply IH.
    + cbn [single_breaks]. rewrite Hcr, Hlf. simpl. apply IH.
Qed.

Lemma split_lines_cons (text : string) :
  ∃ line lines, SYLK.split_lines text = line :: lines.
Proof.
  destruct text as [|c rest]; simpl; [by eauto|].
  destruct (Ascii.eqb c Chr.lf); [by eauto|]. destruct (SYLK.split_lines rest); by eauto.
Qed.

Lemma split_lines_clean (b : bool) (text : string) :
  single_breaks b text = true →
  Forall (λ line, Str.contains Chr.cr line = false ∧ Str.contains Chr.lf line = false)
         (SYLK.split_lines text) ∧
  inner_lines_nonempty (negb b) (SYLK.split_lines text).
Proof.
  revert b. induction text as [|c text IH]; intros b; [by repeat constructor|].
  cbn [single_breaks SYLK.split_lines]. intros [Hcr Hrest]%andb_true_iff.
  apply negb_true_iff in Hcr.
  destruct (split_lines_cons text) as (line & lines & Hlines).
  destruct (Ascii.eqb c Chr.lf) eqn:Hlf.
  - apply andb_true_iff in Hrest as [->%negb_true_iff Hrest].
    destruct (IH true Hrest) as [Hclean Hinner]. split; [by constructor|].
    rewrite Hlines in *. cbn [inner_lines_nonempty]. split; [by left|done].
  - destruct (IH false Hrest) as [Hclean Hinner]. rewrite Hlines in *.
    apply Forall_cons in Hclean as [[Hl1 Hl2] Hclean]. split.
    + constructor; [|done]. cbn [Str.contains]. rewrite Ascii.eqb_sym, Hcr.
      rewrite (Ascii.eqb_sym Chr.lf), Hlf. done.
    + cbn [inner_lines_nonempty] in *. destruct lines; [done|].
      split; [by right|]. by destruct Hinner.
Qed.

Lemma inner_lines_lookup (exempt : bool) (lines : list string) (i : nat) :
  inner_lines_nonempty exempt lines →
  (0 < i)%nat → (S i < length lines)%nat → lines !! i ≠ Some EmptyString.
Proof.
  revert exempt i. induction lines as [|line lines IH]; intros exempt i Hinner Hi Hlen.
  - simpl in Hlen. lia.
  - destruct i as [|i]; [lia|]. simpl in *. destruct lines as [|line' lines']; [simpl in Hlen; lia|].
    destruct Hinner as [_ Hinner]. destruct i as [|i].
    + simpl. destruct lines' as [|l2 lines'']; [simpl in Hlen; lia|].
      destruct Hinner as [[?|Hne] _]; [done|]. by intros [= ->].
    + apply (IH false (S i)); [done|lia|simpl in *; lia].
Qed.

(** X19.  [parse] hands [parseline] lines without any carriage return or
    line feed, and, runs of line breaks counting as one, never an empty
    line except possibly as the first or the last one. *)
Theorem parse_lines_are_clean (text : string) :
  Forall (λ line, Str.contains Chr.cr line = false ∧ Str.contains Chr.lf line = false)
         (SYLK.split_lines (SYLK.join_breaks false text)) ∧
  (∀ i, (0 < i)%nat →
        (S i < length (SYLK.split_lines (SYLK.join_breaks false text)))%nat →
        SYLK.split_lines (SYLK.join_breaks false text) !! i ≠ Some EmptyString).
Proof.
  destruct (split_lines_clean false (SYLK.join_breaks false text)) as [Hclean Hinner];
    [apply join_breaks_single|].
  split; [done|]. intros i. by apply (inner_lines_lookup (negb false)).
Qed.

Lemma join_breaks_snoc (b : bool) (text : string) :
  SYLK.join_breaks b (text ++ Str.chr Chr.lf) =
    if ends_in_break b text then SYLK.join_breaks b text
    else SYLK.join_breaks b text ++ Str.chr Chr.lf.
Proof.
  revert b. induction text as [|c text IH]; intros b; [by destruct b|].
  cbn [String.append SYLK.join_breaks ends_in_break]. unfold is_break.
  destruct (Ascii.eqb c Chr.cr || Ascii.eqb c Chr.lf).
  - rewrite IH. destruct b; [done|]. by destruct (ends_in_break true text).
  - rewrite IH. by destruct (ends_in_break false text).
Qed.

Lemma split_lines_snoc (text : string) :
  SYLK.split_lines (text ++ Str.chr Chr.lf) = (SYLK.split_lines text ++ [EmptyString])%list.
Proof.
  induction text as [|c text IH]; [done|]. cbn [String.append SYLK.split_lines].
  rewrite IH. destruct (Ascii.eqb c Chr.lf); [done|].
  by destruct (split_lines_cons text) as (line & lines & ->).
Qed.

Lemma parseline_empty (time : HostTime.lib) (s : SYLK.t) :
  SYLK.parseline time EmptyString s = (Ok tt, s).
Proof. reflexivity. Qed.

(** X20.  A line break at the end of the text makes no difference:
    [parse] has the same outcome and leaves the same document with or
    without it. *)
Theorem parse_trailing_break (time : HostTime.lib) (text : string) (s : SYLK.t) :
  SYLK.parse time (text ++ Str.chr Chr.lf) s = SYLK.parse time text s.
Proof.
  unfold SYLK.parse. rewrite join_breaks_snoc.
  destruct (ends_in_break false text); [done|].
  rewrite split_lines_snoc, for_each_app. unfold SYLK.bind.
  destruct (SYLK.for_each _ _ s) as [[[]| |] s']; [|done..].
  by rewrite for_each_one, parseline_empty.
Qed.

(** ** Integers written and read back *)

Lemma uint_acc_pos (d : Decimal.uint) (acc : positive) :
  uint_acc d (Z.pos acc) = Z.pos (Pos.of_uint_acc d acc).
Proof.
  revert acc. induction d; intros acc; simpl; [done|..];
    (etrans; [|apply IHd]); f_equal; lia.
Qed.

Lemma uint_acc_zero (d : Decimal.uint) : uint_acc d 0 = Z.of_N (Pos.of_uint d).
Proof.
  induction d; simpl; [done|done|..]; by rewrite <- uint_acc_pos.
Qed.

Lemma uint_acc_to_uint (p : positive) : uint_acc (Pos.to_uint p) 0 = Z.pos p.
Proof. by rewrite uint_acc_zero, DecimalPos.Unsigned.of_to. Qed.

(** The digits [str] prints are those [int] and [eval] read. *)
Lemma digits_read (d : Decimal.uint) (acc : Z) :
  Py.int_digits acc (NilEmpty.string_of_uint d) = Some (uint_acc d acc) ∧
  Py.lit_digits acc (NilEmpty.string_of_uint d) = Some (uint_acc d acc).
Proof. revert acc. induction d; intros acc; simpl; [done|..]; apply IHd. Qed.

Lemma to_uint_head (p : positive) :
  ∃ c rest, NilEmpty.string_of_uint (Pos.to_uint p) = String c rest ∧
            Chr.is_digit c = true ∧ Ascii.eqb c "0" = false ∧
            Py.int_unsigned (String c rest) = Some (Z.pos p) ∧
            Py.decimal_literal (String c rest) = Some (Z.pos p).
Proof.
  pose proof (uint_acc_to_uint p) as Hval.
  pose proof (DecimalPos.Unsigned.to_uint_nonnil p) as Hnil.
  assert (Hhead : ∀ d', Pos.to_uint p ≠ Decimal.D0 d').
  { intros d' Hd'. pose proof (DecimalPos.Unsigned.to_of (Pos.to_uint p)) as Hnorm.
    rewrite DecimalPos.Unsigned.of_to in Hnorm.
    change (N.to_uint (N.pos p)) with (Pos.to_uint p) in Hnorm.
    rewrite Hd', unorm_D0 in Hnorm.
    destruct (Decimal.nzhead d') eqn:Hnz;
      [apply unorm_0 in Hnz; rewrite Hnz in Hnorm; injection Hnorm as ->;
       by apply (DecimalPos.Unsigned.to_uint_nonzero p)|..];
      (rewrite unorm_nzhead in Hnorm by (rewrite Hnz; discriminate);
       symmetry in Hnorm; by apply nzhead_nonzero in Hnorm). }
  destruct (Pos.to_uint p) as [|d|d|d|d|d|d|d|d|d|d] eqn:Hd; [done|by destruct (Hhead d)|..];
    simpl in Hval |- *; eexists _, _; (split; [done|]);
    (split; [done|]); (split; [done|]);
    (split; [exact (eq_trans (proj1 (digits_read d _)) (f_equal Some Hval))
            |exact (eq_trans (proj2 (digits_read d _)) (f_equal Some Hval))]).
Qed.

Lemma uint_numeral (d : Decimal.uint) : numeral_chars (NilEmpty.string_of_uint d) = true.
Proof. induction d; simpl; [done|..]; exact IHd. Qed.

Lemma of_Z_numeral (n : Z) :
  numeral_chars (Str.of_Z n) = true ∧ Str.of_Z n ≠ EmptyString.
Proof.
  destruct n as [|p|p]; unfold Str.of_Z; simpl; [done| |].
  - split; [apply uint_numeral|].
    destruct (to_uint_head p) as (c & rest & -> & _). done.
  - split; [apply uint_numeral|done].
Qed.

Lemma numeral_not_space (c : ascii) :
  Chr.is_digit c || Ascii.eqb c "-" = true → Chr.is_space c = false.
Proof.
  intros [Hd| ->%Ascii.eqb_eq]%orb_true_iff; [|done].
  unfold Chr.is_digit in Hd. unfold Chr.is_space.
  apply andb_true_iff in Hd as [H1%Z.leb_le H2%Z.leb_le].
  repeat (apply orb_false_iff; split); rewrite ?andb_false_iff, ?Z.leb_gt, ?Z.eqb_neq; lia.
Qed.

Lemma numeral_rev_onto (s acc : string) :
  numeral_chars (Str.rev_onto s acc) = numeral_chars s && numeral_chars acc.
Proof.
  revert acc. induction s as [|c s IH]; intros acc; [done|]. simpl. rewrite IH. simpl.
  destruct (Chr.is_digit c || Ascii.eqb c "-"), (numeral_chars s); simpl; try done.
Qed.

Lemma rev_onto_twice (s a b : string) :
  Str.rev_onto (Str.rev_onto s a) b = Str.rev_onto a (s ++ b).
Proof. revert a b. induction s as [|c s IH]; intros a b; [done|]. simpl. by rewrite IH. Qed.

Lemma lstrip_numeral (s : string) : numeral_chars s = true → Str.lstrip s = s.
Proof.
  destruct s as [|c s]; [done|]. simpl. intros [Hc _]%andb_true_iff.
  by rewrite numeral_not_space.
Qed.

Lemma strip_numeral (s : string) : numeral_chars s = true → Str.strip s = s.
Proof.
  intros Hs. unfold Str.strip, Str.rev. rewrite (lstrip_numeral s Hs).
  rewrite lstrip_numeral by (by rewrite numeral_rev_onto, Hs).
  rewrite rev_onto_twice. simpl. apply append_empty.
Qed.

(** [int(str(n))] is [n], and so is [eval(str(n))]; [escape] leaves the
    text of a number alone. *)
Lemma int_of_Z (n : Z) : Py.int (Str.of_Z n) = Some n.
Proof.
  unfold Py.int. rewrite strip_numeral by apply of_Z_numeral.
  destruct n as [|p|p]; unfold Str.of_Z; simpl; [done| |].
  - destruct (to_uint_head p) as (c & rest & -> & Hdigit & _ & Hint & _).
    rewrite <- Hint.
    destruct (Ascii.eqb_spec c "-") as [->|Hminus]; [done|].
    destruct (Ascii.eqb_spec c "+") as [->|Hplus]; [done|].
    destruct c as [[] [] [] [] [] [] [] []]; done.
  - destruct (to_uint_head p) as (c & rest & -> & _ & _ & -> & _). done.
Qed.

Lemma eval_of_Z (n : Z) :
  digits n <= Py.max_str_digits →
  SYLK.escape (Str.of_Z n) = Str.of_Z n ∧ Py.eval (Str.of_Z n) = Some (Py.VInt n).
Proof.
  intros Hdigits%Z.ltb_ge.
  destruct n as [|p|p]; unfold digits, Str.of_Z in *; simpl in Hdigits |- *; [done| |].
  - destruct (to_uint_head p) as (c & rest & Hp & Hdigit & _ & _ & Hlit).
    rewrite Hp in *.
    assert (Hq : Ascii.eqb c Chr.dquote = false)
      by (destruct (Ascii.eqb_spec c Chr.dquote) as [->|]; done).
    assert (Hm : Ascii.eqb c "-" = false)
      by (destruct (Ascii.eqb_spec c "-") as [->|]; done).
    assert (Hplus : Ascii.eqb c "+" = false)
      by (destruct (Ascii.eqb_spec c "+") as [->|]; done).
    split.
    + unfold SYLK.escape. cbn [Str.take]. unfold SYLK.q, Str.chr.
      destruct (String.eqb_spec (String c EmptyString) (String Chr.dquote EmptyString))
        as [[= ->]|_]; done.
    + unfold Py.eval, Py.int_literal. by rewrite Hq, Hm, Hplus, Hdigits, Hlit.
  - destruct (to_uint_head p) as (c & rest & Hp & _ & _ & _ & Hlit).
    rewrite Hp in *.
    split; [done|]. unfold Py.eval, Py.int_literal.
    change (Ascii.eqb "-" Chr.dquote) with false. change (Ascii.eqb "-" "-") with true.
    cbv iota. by rewrite Hdigits, Hlit.
Qed.

Lemma numeral_no_semicolon (s : string) :
  numeral_chars s = true → Str.contains ";" s = false.
Proof.
  induction s as [|c s IH]; [done|]. cbn [Str.contains numeral_chars].
  intros [Hc Hs]%andb_true_iff. rewrite (IH Hs), orb_false_r.
  destruct (Ascii.eqb_spec ";" c) as [<-|]; [by vm_compute in Hc|done].
Qed.

Lemma split_fields_plain (a : string) :
  Str.contains ";" a = false → SYLK.split_fields a = [a].
Proof.
  induction a as [|d a IH]; [done|]. cbn [Str.contains SYLK.split_fields].
  intros [Hd Ha]%orb_false_iff. rewrite (Ascii.eqb_sym d), Hd, (IH Ha). done.
Qed.

Lemma split_fields_app (a r : string) (c : ascii) :
  Str.contains ";" a = false → Chr.is_letter c = true →
  SYLK.split_fields (a ++ String ";" (String c r)) = a :: SYLK.split_fields (String c r).
Proof.
  intros Ha Hc. induction a as [|d a IH].
  - cbn [String.append SYLK.split_fields]. by rewrite Hc.
  - cbn [Str.contains] in Ha. apply orb_false_iff in Ha as [Hd Ha].
    cbn [String.append]. cbn [SYLK.split_fields]. rewrite (Ascii.eqb_sym d), Hd.
    cbn [andb]. by rewrite (IH Ha).
Qed.

Lemma subfield_no_semicolon (c : ascii) (n : Z) :
  Chr.is_letter c = true → Str.contains ";" (String c (Str.of_Z n)) = false.
Proof.
  intros Hc. cbn [Str.contains].
  rewrite numeral_no_semicolon by apply of_Z_numeral. rewrite orb_false_r.
  destruct (Ascii.eqb_spec ";" c) as [<-|]; done.
Qed.

Lemma c_subfield_X (time : HostTime.lib) (val : string) (n : Z) (s : SYLK.t) :
  Py.int val = Some n →
  SYLK.c_subfield time (String "X" val) s = (Ok tt, SYLK.set_curx n s).
Proof.
  intros Hint. unfold SYLK.c_subfield, SYLK.bind, SYLK.lift, SYLK.int.
  cbn -[Py.int]. by rewrite Hint.
Qed.

Lemma c_subfield_Y (time : HostTime.lib) (val : string) (n : Z) (s : SYLK.t) :
  Py.int val = Some n →
  SYLK.c_subfield time (String "Y" val) s = (Ok tt, SYLK.set_cury n s).
Proof.
  intros Hint. unfold SYLK.c_subfield, SYLK.bind, SYLK.lift, SYLK.int.
  cbn -[Py.int]. by rewrite Hint.
Qed.

(** X21.  An integer cell comes back as written: for every cursor position
    [(x, y)] with [x, y >= 1] and every integer [n], none of the three
    numbers having more decimal digits than the interpreter converts, the
    record [C;X<x>;Y<y>;K<n>] (the numbers in decimal), parsed while the
    current kind is not [date], raises nothing, leaves the cursor at
    [(x, y)] and the decimal text of [n] in the cell [(x, y)] of the
    table. *)
Theorem integer_cell_round_trip (time : HostTime.lib) (s : SYLK.t) (x y n : Z) :
  1 <= x → 1 <= y → SYLK.currenttype s ≠ "date" →
  digits x <= Py.max_str_digits → digits y <= Py.max_str_digits →
  digits n <= Py.max_str_digits →
  ∃ s',
    SYLK.parseline time
      ("C;X" ++ Str.of_Z x ++ ";Y" ++ Str.of_Z y ++ ";K" ++ Str.of_Z n) s = (Ok tt, s') ∧
    SYLK.curx s' = x ∧ SYLK.cury s' = y ∧
    Table.cell (SYLK.data s') x y = Some (Str.of_Z n).
Proof.
  intros Hx Hy Hty _ _ Hn.
  assert (Hfields :
    SYLK.split_fields ("C;X" ++ Str.of_Z x ++ ";Y" ++ Str.of_Z y ++ ";K" ++ Str.of_Z n)
    = ["C"; String "X" (Str.of_Z x); String "Y" (Str.of_Z y); String "K" (Str.of_Z n)]).
  { change ("C;X" ++ Str.of_Z x ++ ";Y" ++ Str.of_Z y ++ ";K" ++ Str.of_Z n)
      with ("C" ++ String ";" (String "X" (Str.of_Z x ++ ";Y" ++ Str.of_Z y ++ ";K" ++ Str.of_Z n))).
    rewrite split_fields_app by done. f_equal.
    change (String "X" (Str.of_Z x ++ ";Y" ++ Str.of_Z y ++ ";K" ++ Str.of_Z n))
      with (String "X" (Str.of_Z x) ++ String ";" (String "Y" (Str.of_Z y ++ ";K" ++ Str.of_Z n))).
    rewrite split_fields_app by (by (apply subfield_no_semicolon || idtac)). f_equal.
    change (String "Y" (Str.of_Z y ++ ";K" ++ Str.of_Z n))
      with (String "Y" (Str.of_Z y) ++ String ";" (String "K" (Str.of_Z n))).
    rewrite split_fields_app by (by (apply subfield_no_semicolon || idtac)). f_equal.
    by apply split_fields_plain, subfield_no_semicolon. }
  rewrite (parseline_C time _ _ s Hfields). cbn [SYLK.for_each]. unfold SYLK.bind.
  rewrite (c_subfield_X time _ x) by apply int_of_Z.
  rewrite (c_subfield_Y time _ y) by apply int_of_Z.
  set (s2 := SYLK.set_cury y (SYLK.set_curx x s)).
  rewrite (write_cell_format time s2 (Str.of_Z n) (Py.VInt n));
    [|by rewrite (proj1 (eval_of_Z n Hn)), (proj2 (eval_of_Z n Hn))|by left].
  cbn [Py.format_s]. change (SYLK.curx s2) with x. change (SYLK.cury s2) with y.
  unfold SYLK.write_cell.
  destruct (setitem_step x y (Str.of_Z n) (SYLK.data s2) Hx Hy)
    as (tb & -> & _ & _ & Hstored & _).
  eexists. split; [done|]. split; [done|]. split; [done|]. cbn [SYLK.data SYLK.set_data].
  destruct Hstored as (row & Hrow & _ & Hcell).
  - apply nonblank_true. destruct (of_Z_numeral n) as [Hnum Hne]. split; [done|].
    intros Hsp. by rewrite Hsp in Hnum.
  - apply cell_lookup. eauto.
Qed.

Lemma integer_cell_round_trip_witness :
  ∃ s',
    SYLK.parseline (FixedZone.lib 0)
      ("C;X" ++ Str.of_Z 12 ++ ";Y" ++ Str.of_Z 3 ++ ";K" ++ Str.of_Z (-450)) SYLK.init
      = (Ok tt, s') ∧
    SYLK.curx s' = 12 ∧ SYLK.cury s' = 3 ∧
    Table.cell (SYLK.data s') 12 3 = Some (Str.of_Z (-450)).
Proof.
  apply (integer_cell_round_trip (FixedZone.lib 0) SYLK.init 12 3 (-450));
    [lia|lia|discriminate|by vm_compute..].
Defined.

(** X22.  A format can be referenced right after it is registered: once a
    [P] record has registered a pattern, the record [F;P<i>], with [i] the
    number of formats registered before it, raises nothing, and the current
    format and kind read afterwards are that pattern and its kind, nothing
    else being changed. *)
Theorem register_then_reference (time : HostTime.lib) (tag raw : string)
    (rest : list string) (s : SYLK.t) :
  ∃ kind s1 s2,
    SYLK._p_fields (tag :: String "P" raw :: rest) s = (Ok tt, s1) ∧
    SYLK.printformats s1
      = (SYLK.printformats s ++ [(Str.remove Chr.backslash raw, kind)])%list ∧
    SYLK.parseline time
      ("F;P" ++ Str.of_Z (Z.of_nat (length (SYLK.printformats s)))) s1
      = (Ok tt, s2) ∧
    SYLK.currentformat s2 = Str.remove Chr.backslash raw ∧
    SYLK.currenttype s2 = kind ∧
    s2 = SYLK.set_current (SYLK.currentformat s2) (SYLK.currenttype s2) s1.
Proof.
  set (pattern := Str.remove Chr.backslash raw).
  set (kind := match Dict.get pattern SYLK.knownformats with
               | Some ty => ty
               | None => SYLK.guess_type pattern
               end).
  set (s1 := SYLK.set_printformats (SYLK.printformats s ++ [(pattern, kind)]) s).
  exists kind, s1, (SYLK.set_current pattern kind s1).
  split; [|split; [done|split; [|done]]].
  - unfold SYLK._p_fields, SYLK.bind, SYLK.lift. rewrite getitem_second.
    remember SYLK.knownformats as known eqn:Hk. simpl. fold pattern. subst known.
    unfold s1, kind. by destruct (Dict.get pattern SYLK.knownformats).
  - set (i := Z.of_nat (length (SYLK.printformats s))).
    assert (Hfields : SYLK.split_fields ("F;P" ++ Str.of_Z i) = ["F"; String "P" (Str.of_Z i)]).
    { change ("F;P" ++ Str.of_Z i) with ("F" ++ String ";" (String "P" (Str.of_Z i))).
      rewrite split_fields_app by done. f_equal.
      by apply split_fields_plain, subfield_no_semicolon. }
    rewrite (parseline_F time _ _ _ Hfields), for_each_one.
    rewrite (f_subfield_P (Str.of_Z i) i) by apply int_of_Z.
    unfold s1 at 1. cbn [SYLK.printformats SYLK.set_printformats]. unfold i.
    rewrite (getitem_lookup _ _ (pattern, kind)); [done|].
    rewrite lookup_app_r by done. by rewrite Nat.sub_diag.
Qed.

(** ** Records written out in full *)

Lemma contains_app (c : ascii) (a b : string) :
  Str.contains c (a ++ b) = Str.contains c a || Str.contains c b.
Proof. induction a as [|d a IH]; [done|]. cbn [String.append Str.contains]. by rewrite IH, orb_assoc. Qed.

Lemma sub_absent (c : ascii) (r body : string) :
  Str.contains c body = false → Str.sub c r body = body.
Proof.
  induction body as [|d body IH]; [done|]. cbn [Str.contains Str.sub].
  intros [Hd Hbody]%orb_false_iff. by rewrite Hd, IH.
Qed.

Lemma plain_drop_last (body : string) : plain body = true → plain (Str.drop_last body) = true.
Proof.
  induction body as [|c body IH]; [done|]. cbn [plain]. intros [Hc Hbody]%andb_true_iff.
  destruct body as [|d body]; [done|].
  change (Str.drop_last (String c (String d body))) with (String c (Str.drop_last (String d body))).
  cbn [plain]. by rewrite Hc, IH.
Qed.

Lemma contains_drop_last (c : ascii) (body : string) :
  Str.contains c body = false → Str.contains c (Str.drop_last body) = false.
Proof.
  induction body as [|d body IH]; [done|]. cbn [Str.contains]. intros [Hd Hbody]%orb_false_iff.
  destruct body as [|e body]; [done|].
  change (Str.drop_last (String d (String e body))) with (String d (Str.drop_last (String e body))).
  cbn [Str.contains]. by rewrite Hd, IH.
Qed.

(** A cell record with its three sub-fields: the fields, and what it does
    when the cursor is 1-based and the value is written as it is. *)
Lemma c_record_fields (x y : Z) (tok : string) :
  Str.contains ";" tok = false →
  SYLK.split_fields ("C;X" ++ Str.of_Z x ++ ";Y" ++ Str.of_Z y ++ ";K" ++ tok)
  = ["C"; String "X" (Str.of_Z x); String "Y" (Str.of_Z y); String "K" tok].
Proof.
  intros Htok.
  change ("C;X" ++ Str.of_Z x ++ ";Y" ++ Str.of_Z y ++ ";K" ++ tok)
    with ("C" ++ String ";" (String "X" (Str.of_Z x ++ ";Y" ++ Str.of_Z y ++ ";K" ++ tok))).
  rewrite split_fields_app by done. f_equal.
  change (String "X" (Str.of_Z x ++ ";Y" ++ Str.of_Z y ++ ";K" ++ tok))
    with (String "X" (Str.of_Z x) ++ String ";" (String "Y" (Str.of_Z y ++ ";K" ++ tok))).
  rewrite split_fields_app by (by (apply subfield_no_semicolon || idtac)). f_equal.
  change (String "Y" (Str.of_Z y ++ ";K" ++ tok))
    with (String "Y" (Str.of_Z y) ++ String ";" (String "K" tok)).
  rewrite split_fields_app by (by (apply subfield_no_semicolon || idtac)). f_equal.
  apply split_fields_plain. cbn [Str.contains]. by rewrite Htok.
Qed.

Lemma c_record_writes (time : HostTime.lib) (s : SYLK.t) (x y : Z) (tok : string)
    (v : Py.value) :
  1 <= x → 1 <= y → Str.contains ";" tok = false →
  Py.eval (SYLK.escape tok) = Some v →
  SYLK.currenttype s ≠ "date" ∨ (∃ str, v = Py.VStr str) →
  Table.nonblank (Py.format_s v) = true →
  ∃ s',
    SYLK.parseline time ("C;X" ++ Str.of_Z x ++ ";Y" ++ Str.of_Z y ++ ";K" ++ tok) s
      = (Ok tt, s') ∧
    SYLK.curx s' = x ∧ SYLK.cury s' = y ∧
    Table.cell (SYLK.data s') x y = Some (Py.format_s v).
Proof.
  intros Hx Hy Htok Heval Hplain Hnb.
  rewrite (parseline_C time _ _ s (c_record_fields x y tok Htok)).
  cbn [SYLK.for_each]. unfold SYLK.bind.
  rewrite (c_subfield_X time _ x) by apply int_of_Z.
  rewrite (c_subfield_Y time _ y) by apply int_of_Z.
  set (s2 := SYLK.set_cury y (SYLK.set_curx x s)).
  rewrite (write_cell_format time s2 tok v); [|done|done].
  change (SYLK.curx s2) with x. change (SYLK.cury s2) with y.
  unfold SYLK.write_cell.
  destruct (setitem_step x y (Py.format_s v) (SYLK.data s2) Hx Hy)
    as (tb & -> & _ & _ & Hstored & _).
  eexists. split; [done|]. split; [done|]. split; [done|]. cbn [SYLK.data SYLK.set_data].
  destruct (Hstored Hnb) as (row & Hrow & _ & Hcell). apply cell_lookup. eauto.
Qed.

(** X23.  A quoted string cell comes back as written: for a text without
    double quote, backslash, semicolon, line break or null character, that
    is neither empty nor a single space, the record
    [C;X<x>;Y<y>;K"text"] with [x, y >= 1] raises nothing and leaves the
    text in the cell [(x, y)], whatever the current kind, [date]
    included. *)
Theorem string_cell_round_trip (time : HostTime.lib) (s : SYLK.t) (x y : Z)
    (text : string) :
  1 <= x → 1 <= y →
  plain text = true → Str.contains Chr.dquote text = false →
  Str.contains ";" text = false →
  text ≠ EmptyString → text ≠ " " →
  ∃ s',
    SYLK.parseline time
      ("C;X" ++ Str.of_Z x ++ ";Y" ++ Str.of_Z y ++ ";K" ++ SYLK.q ++ text ++ SYLK.q) s
      = (Ok tt, s') ∧
    SYLK.curx s' = x ∧ SYLK.cury s' = y ∧
    Table.cell (SYLK.data s') x y = Some text.
Proof.
  intros Hx Hy Hplain Hquote Hsemi Hne Hsp.
  apply (c_record_writes time s x y (SYLK.q ++ text ++ SYLK.q) (Py.VStr text)); try done.
  - change (SYLK.q ++ text ++ SYLK.q) with (String Chr.dquote (text ++ SYLK.q)).
    cbn [Str.contains]. by rewrite contains_app, Hsemi.
  - unfold SYLK.escape.
    change (Str.take 1 (SYLK.q ++ ?t)) with SYLK.q. rewrite String.eqb_refl.
    unfold Str.inner. change (Str.tail (SYLK.q ++ ?t)) with t.
    change (text ++ SYLK.q) with (text ++ Str.chr Chr.dquote). rewrite drop_last_snoc.
    change (Py.eval (SYLK.q ++ ?t)) with (Py.VStr <$> Py.str_body t).
    rewrite str_body_escaped by done. by rewrite sub_absent.
  - right. by exists text.
  - by apply nonblank_true.
Qed.

Lemma string_cell_round_trip_witness :
  ∃ s',
    SYLK.parseline (FixedZone.lib 0)
      ("C;X" ++ Str.of_Z 2 ++ ";Y" ++ Str.of_Z 1 ++ ";K" ++ SYLK.q ++ "Total, net" ++ SYLK.q)
      (SYLK.set_current "m/d/yy" "date" SYLK.init)
      = (Ok tt, s') ∧
    SYLK.curx s' = 2 ∧ SYLK.cury s' = 1 ∧
    Table.cell (SYLK.data s') 2 1 = Some "Total, net".
Proof.
  apply (string_cell_round_trip (FixedZone.lib 0)
           (SYLK.set_current "m/d/yy" "date" SYLK.init) 2 1 "Total, net");
    [lia|lia|reflexivity|reflexivity|reflexivity|discriminate|discriminate].
Defined.

Lemma c_subfield_other (time : HostTime.lib) (c : ascii) (val : string) (s : SYLK.t) :
  c ≠ "X"%char → c ≠ "Y"%char → c ≠ "K"%char →
  SYLK.c_subfield time (String c val) s = SYLK.addunknown "C" (Str.chr c) s.
Proof.
  intros HX%Ascii.eqb_neq HY%Ascii.eqb_neq HK%Ascii.eqb_neq.
  unfold SYLK.c_subfield, SYLK.bind, SYLK.lift. cbn [Str.head]. by rewrite HX, HY, HK.
Qed.

(** X24.  A semicolon followed by a letter cuts a quoted value too: the
    line is split there, so that the value sub-field is the opening quote
    and the text before the semicolon, of which [escape] drops the last
    character.  The record made of [C;X<x>;Y<y>;K], a quote, a text, a
    semicolon, a letter [c] other than [X], [Y] and [K], and more text,
    with [x, y >= 1], raises nothing; the cell [(x, y)] then holds the text
    before the semicolon without its last character, and the letter is in
    the unknown-field report under [C]. *)
Theorem semicolon_cuts_quoted_value (time : HostTime.lib) (s : SYLK.t) (x y : Z)
    (before after : string) (c : ascii) :
  1 <= x → 1 <= y →
  digits x <= Py.max_str_digits → digits y <= Py.max_str_digits →
  plain before = true → Str.contains Chr.dquote before = false →
  Str.contains ";" before = false →
  Str.drop_last before ≠ EmptyString → Str.drop_last before ≠ " " →
  Chr.is_letter c = true → c ≠ "X"%char → c ≠ "Y"%char → c ≠ "K"%char →
  Str.contains ";" after = false →
  ∃ s',
    SYLK.split_fields
      ("C;X" ++ Str.of_Z x ++ ";Y" ++ Str.of_Z y ++ ";K" ++ SYLK.q ++ before ++ ";"
       ++ String c after)
      = ["C"; String "X" (Str.of_Z x); String "Y" (Str.of_Z y);
         String "K" (SYLK.q ++ before); String c after] ∧
    SYLK.parseline time
      ("C;X" ++ Str.of_Z x ++ ";Y" ++ Str.of_Z y ++ ";K" ++ SYLK.q ++ before ++ ";"
       ++ String c after) s
      = (Ok tt, s') ∧
    Table.cell (SYLK.data s') x y = Some (Str.drop_last before) ∧
    recorded "C" (Str.chr c) s'.
Proof.
  intros Hx Hy _ _ Hplain Hquote Hsemi Hne Hsp Hc HX HY HK Hafter.
  assert (Hfields :
    SYLK.split_fields
      ("C;X" ++ Str.of_Z x ++ ";Y" ++ Str.of_Z y ++ ";K" ++ SYLK.q ++ before ++ ";"
       ++ String c after)
      = ["C"; String "X" (Str.of_Z x); String "Y" (Str.of_Z y);
         String "K" (SYLK.q ++ before); String c after]).
  { set (tail := SYLK.q ++ before ++ ";" ++ String c after).
    change ("C;X" ++ Str.of_Z x ++ ";Y" ++ Str.of_Z y ++ ";K" ++ tail)
      with ("C" ++ String ";" (String "X" (Str.of_Z x ++ ";Y" ++ Str.of_Z y ++ ";K" ++ tail))).
    rewrite split_fields_app by done. f_equal.
    change (String "X" (Str.of_Z x ++ ";Y" ++ Str.of_Z y ++ ";K" ++ tail))
      with (String "X" (Str.of_Z x) ++ String ";" (String "Y" (Str.of_Z y ++ ";K" ++ tail))).
    rewrite split_fields_app by (by (apply subfield_no_semicolon || idtac)). f_equal.
    change (String "Y" (Str.of_Z y ++ ";K" ++ tail))
      with (String "Y" (Str.of_Z y) ++ String ";" (String "K" tail)).
    rewrite split_fields_app by (by (apply subfield_no_semicolon || idtac)). f_equal.
    unfold tail.
    change (String "K" (SYLK.q ++ before ++ ";" ++ String c after))
      with (String "K" (String Chr.dquote (before ++ String ";" (String c after)))).
    change (String "K" (String Chr.dquote (before ++ String ";" (String c after))))
      with (String "K" (String Chr.dquote before) ++ String ";" (String c after)).
    rewrite split_fields_app; [|cbn [Str.contains]; by rewrite Hsemi|done].
    f_equal. apply split_fields_plain. cbn [Str.contains]. rewrite Hafter, orb_false_r.
    destruct (Ascii.eqb_spec ";" c) as [<-|]; done. }
  assert (Heval : Py.eval (SYLK.escape (SYLK.q ++ before))
                  = Some (Py.VStr (Str.drop_last before))).
  { unfold SYLK.escape.
    change (Str.take 1 (SYLK.q ++ ?t)) with SYLK.q. rewrite String.eqb_refl.
    unfold Str.inner. change (Str.tail (SYLK.q ++ ?t)) with t.
    change (Py.eval (SYLK.q ++ ?t)) with (Py.VStr <$> Py.str_body t).
    rewrite str_body_escaped by (by apply plain_drop_last).
    by rewrite sub_absent by (by apply contains_drop_last). }
  rewrite (parseline_C time _ _ s Hfields).
  cbn [SYLK.for_each]. unfold SYLK.bind.
  rewrite (c_subfield_X time _ x) by apply int_of_Z.
  rewrite (c_subfield_Y time _ y) by apply int_of_Z.
  set (s2 := SYLK.set_cury y (SYLK.set_curx x s)).
  rewrite (write_cell_format time s2 (SYLK.q ++ before) (Py.VStr (Str.drop_last before)));
    [|done|right; by eexists].
  change (SYLK.curx s2) with x. change (SYLK.cury s2) with y. cbn [Py.format_s].
  destruct (write_cell_reads s2 x y (Str.drop_last before) Hx Hy) as (s3 & -> & Hcell & _);
    [by apply nonblank_true|].
  rewrite (c_subfield_other time c after s3) by done.
  destruct (addunknown_adds "C" (Str.chr c) s3) as (s' & -> & Hadds & Hs').
  exists s'. split; [done|]. split; [done|]. split.
  - by rewrite Hs'.
  - apply Hadds. right. by left.
Qed.

Lemma semicolon_cuts_quoted_value_witness :
  ∃ s',
    SYLK.split_fields
      ("C;X" ++ Str.of_Z 2 ++ ";Y" ++ Str.of_Z 1 ++ ";K" ++ SYLK.q ++ "net" ++ ";"
       ++ String "g" ("ross" ++ SYLK.q))
      = ["C"; String "X" (Str.of_Z 2); String "Y" (Str.of_Z 1);
         String "K" (SYLK.q ++ "net"); String "g" ("ross" ++ SYLK.q)] ∧
    SYLK.parseline (FixedZone.lib 0)
      ("C;X" ++ Str.of_Z 2 ++ ";Y" ++ Str.of_Z 1 ++ ";K" ++ SYLK.q ++ "net" ++ ";"
       ++ String "g" ("ross" ++ SYLK.q)) SYLK.init
      = (Ok tt, s') ∧
    Table.cell (SYLK.data s') 2 1 = Some (Str.drop_last "net") ∧
    recorded "C" (Str.chr "g") s'.
Proof.
  apply (semicolon_cuts_quoted_value (FixedZone.lib 0) SYLK.init 2 1 "net"
           ("ross" ++ SYLK.q) "g");
    first [lia | discriminate | reflexivity | by vm_compute].
Defined.
